(** * visionbench: score-based diffusion (src/diffusion.py)

    A shallow embedding of the training objective, the key handling of the
    optimisation step, the noise schedule and the shape discipline of the
    Mixer2d score network, together with the properties stated about them.

    Conventions.
    - Floating-point scalars and tensor elements are read as real numbers;
      a tensor is the list of its elements, a batch a list of tensors.
      The time sampling and the loss weight are also given with their
      binary32 rounding ([batch_times32], [weight32]), on the IEEE 754
      operations of [SpecFloat].
    - Tensor shapes are lists of naturals.
    - A PRNG key is JAX's default threefry key: a pair of 32-bit words,
      each a [Z] in [0, 2^32) with the wrap-around written out.
    - Python exceptions are the [Raise] results of [result]. *)

From Stdlib Require Import ZArith List Reals Lra Lia Bool Arith SpecFloat.
Import ListNotations.

(** ** Results and exceptions *)

Inductive error : Type :=
| AssertionError
| ZeroDivisionError
| ValueError.

Inductive result (A : Type) : Type :=
| Ok (a : A)
| Raise (e : error).

Arguments Ok {A} a.
Arguments Raise {A} e.

Definition bind {A B : Type} (r : result A) (f : A -> result B) : result B :=
  match r with
  | Ok a => f a
  | Raise e => Raise e
  end.

Notation "'let*' x ':=' r 'in' k" := (bind r (fun x => k))
  (at level 10, x pattern, r at level 100, k at level 200).

(** ** 32-bit unsigned words *)

Module U32.

Definition width : Z := 32.
Definition modulus : Z := 2 ^ 32.

Definition wrap (x : Z) : Z := x mod modulus.

Definition add (x y : Z) : Z := wrap (x + y).

Definition xor (x y : Z) : Z := Z.lxor x y.

Definition shift_right_logical (x d : Z) : Z := Z.shiftr x d.

(** [rotate_left x d = (x << d) | (x >> (32 - d))] on 32 bits. *)
Definition rotate_left (x d : Z) : Z :=
  Z.lor (wrap (Z.shiftl x d)) (Z.shiftr x (width - d)).

Definition in_range (x : Z) : Prop := (0 <= x < modulus)%Z.

End U32.

(** ** The threefry2x32 block function and JAX's key operations

    [jax.random] is a library, not part of the repository; the program's
    use of keys is decided by it, so it is written out here as JAX
    implements it for the default [threefry2x32] generator. *)

Module Threefry.

Definition rotations0 : list Z := [13; 15; 26; 6]%Z.
Definition rotations1 : list Z := [17; 29; 16; 24]%Z.

Definition apply_round (v : Z * Z) (rot : Z) : Z * Z :=
  let v0 := U32.add (fst v) (snd v) in
  let v1 := U32.rotate_left (snd v) rot in
  (v0, U32.xor v0 v1).

(** Key injection after a group of four rounds: [x0 += ka; x1 += kb + i]. *)
Definition inject (x : Z * Z) (ka kb i : Z) : Z * Z :=
  (U32.add (fst x) ka, U32.add (U32.add (snd x) kb) i).

Definition threefry2x32 (key1 key2 x1 x2 : Z) : Z * Z :=
  let ks0 := key1 in
  let ks1 := key2 in
  let ks2 := U32.xor (U32.xor key1 key2) 0x1BD11BDA%Z in
  let x := (U32.add x1 ks0, U32.add x2 ks1) in
  let x := fold_left apply_round rotations0 x in
  let x := inject x ks1 ks2 1 in
  let x := fold_left apply_round rotations1 x in
  let x := inject x ks2 ks0 2 in
  let x := fold_left apply_round rotations0 x in
  let x := inject x ks0 ks1 3 in
  let x := fold_left apply_round rotations1 x in
  let x := inject x ks1 ks2 4 in
  let x := fold_left apply_round rotations0 x in
  inject x ks2 ks0 5.

End Threefry.

Definition key : Type := (Z * Z)%type.

(** [jax.random.PRNGKey(seed)] in JAX's default 32-bit mode, in which the
    program runs: the seed is narrowed to 32 bits before the key is formed,
    so the high word [seed >> 32] of the key is 0 and the low word is the
    seed modulo [2^32]. *)
Definition PRNGKey (seed : Z) : key :=
  (0%Z, U32.wrap seed).

Module JaxRandom.

Import Threefry.

(** [lax.iota(uint32, n)]. *)
Definition iota (n : nat) : list Z :=
  map (fun i => U32.wrap (Z.of_nat i)) (seq 0 n).

(** [threefry_2x32(keypair, count)] on a flat array of counts: an odd
    array is padded with a zero, the array is cut in two halves that are
    hashed pairwise, and the two output halves are concatenated. *)
Definition threefry_2x32 (k : key) (count : list Z) : list Z :=
  let odd_size := Nat.odd (length count) in
  let padded := if odd_size then count ++ [0%Z] else count in
  let half := Nat.div (length padded) 2 in
  let x0 := firstn half padded in
  let x1 := skipn half padded in
  let out := map (fun '(a, b) => threefry2x32 (fst k) (snd k) a b) (combine x0 x1) in
  let flat := map fst out ++ map snd out in
  if odd_size then removelast flat else flat.

(** Consecutive pairs of a flat array: [reshape(.., (n, 2))]. *)
Fixpoint pairs (l : list Z) : list key :=
  match l with
  | a :: b :: rest => (a, b) :: pairs rest
  | _ => []
  end.

(** [_threefry_split_original]. *)
Definition split_original (k : key) (num : nat) : list key :=
  pairs (threefry_2x32 k (iota (num * 2))).

(** [iota_2x32_shape((n,))]: the high and the low word of each index. *)
Definition iota_2x32 (n : nat) : list (Z * Z) :=
  map (fun i => (U32.wrap (Z.shiftr (Z.of_nat i) 32), U32.wrap (Z.of_nat i)))
      (seq 0 n).

(** [_threefry_split_foldlike]: the i-th child hashes the index i. *)
Definition split_foldlike (k : key) (num : nat) : list key :=
  map (fun '(hi, lo) => threefry2x32 (fst k) (snd k) hi lo) (iota_2x32 num).

(** [jax.random.split(key, num)]; [partitionable] is the configuration
    flag [jax_threefry_partitionable]. *)
Definition split (partitionable : bool) (k : key) (num : nat) : list key :=
  if partitionable then split_foldlike k num else split_original k num.

(** [_threefry_random_bits_partitionable] at bit width 32. *)
Definition random_bits_partitionable (k : key) (n : nat) : list Z :=
  map (fun '(hi, lo) =>
         let b := threefry2x32 (fst k) (snd k) hi lo in
         U32.xor (fst b) (snd b))
      (iota_2x32 n).

Definition uint32_max : Z := (2 ^ 32 - 1)%Z.

(** [_threefry_random_bits_original] at bit width 32. *)
Definition random_bits_original (k : key) (n : nat) : list Z :=
  let nblocks := (Z.of_nat n / uint32_max)%Z in
  let rem := Z.to_nat (Z.of_nat n mod uint32_max) in
  if (nblocks =? 0)%Z then threefry_2x32 k (iota rem)
  else
    let keys := split_original k (Z.to_nat nblocks + 1) in
    let subkeys := removelast keys in
    let last_key := last keys k in
    let blocks :=
      map (fun sk => threefry_2x32 sk (iota (Z.to_nat uint32_max))) subkeys in
    let last_bits := threefry_2x32 last_key (iota rem) in
    concat blocks ++ last_bits.

Definition random_bits (partitionable : bool) (k : key) (n : nat) : list Z :=
  if partitionable then random_bits_partitionable k n
  else random_bits_original k n.

End JaxRandom.

(** ** Tensors as lists of reals *)

Definition tensor : Type := list R.

Module Tensor.

Fixpoint map2 {A B C : Type} (f : A -> B -> C) (x : list A) (y : list B)
  : list C :=
  match x, y with
  | a :: x', b :: y' => f a b :: map2 f x' y'
  | _, _ => []
  end.

(** Elementwise sum of two arrays of one shape. *)
Definition add (x y : tensor) : tensor := map2 Rplus x y.

(** [c * x] and [x / c] for a scalar [c]. *)
Definition scale (c : R) (x : tensor) : tensor := map (fun v => c * v)%R x.
Definition div_scalar (x : tensor) (c : R) : tensor := map (fun v => v / c)%R x.

Definition square (x : tensor) : tensor := map (fun v => v ^ 2)%R x.

Definition sum (x : tensor) : R := fold_right Rplus 0%R x.

(** [jnp.mean]. *)
Definition mean (x : tensor) : R := (sum x / INR (length x))%R.

(** [jnp.arange(n)] as floating-point values. *)
Definition arange (n : nat) : tensor := map INR (seq 0 n).

End Tensor.

(** Python's [a / b] for a float [a] and an int [b]. *)
Definition py_div (a : R) (b : nat) : result R :=
  if Nat.eqb b 0 then Raise ZeroDivisionError else Ok (a / INR b)%R.

(** Python's [a % b] on non-negative ints. *)
Definition py_mod (a b : nat) : result nat :=
  if Nat.eqb b 0 then Raise ZeroDivisionError else Ok (Nat.modulo a b).

(** [assert c]. *)
Definition py_assert (c : bool) : result unit :=
  if c then Ok tt else Raise AssertionError.

(** ** Sampling: [jax.random.uniform] and [jax.random.normal] *)

Module Sampling.

(** The value of the binary32 pattern [w] (sign bit clear, normal). *)
Definition bitcast_convert_f32 (w : Z) : R :=
  ((1 + IZR (Z.land w 0x7FFFFF) / IZR (2 ^ 23))
   * powerRZ 2 (Z.land (Z.shiftr w 23) 0xFF - 127))%R.

(** The fraction in [0, 1) drawn from 32 random bits: the top 23 bits
    become the mantissa of a float in [1, 2), from which 1 is taken. *)
Definition unit_float (bits : Z) : R :=
  let float_bits := Z.lor (U32.shift_right_logical bits 9) 0x3F800000 in
  (bitcast_convert_f32 float_bits - 1)%R.

(** [jax.random.uniform(key, (n,), minval=.., maxval=..)]. *)
Definition uniform (partitionable : bool) (k : key) (n : nat)
  (minval maxval : R) : tensor :=
  map (fun bits => Rmax minval (unit_float bits * (maxval - minval) + minval)%R)
      (JaxRandom.random_bits partitionable k n).

(** [nextafter(-1, 0)] in binary32. *)
Definition normal_lo : R := (- 1 + / IZR (2 ^ 24))%R.

(** [jax.random.normal(key, shape)] for a shape of [n] elements;
    [erf_inv] is the inverse error function. *)
Definition normal (erf_inv : R -> R) (partitionable : bool) (k : key)
  (n : nat) : tensor :=
  map (fun u => sqrt 2 * erf_inv u)%R (uniform partitionable k n normal_lo 1).

End Sampling.

(** ** The noise schedule (the [__main__] block) *)

Definition int_beta (t : R) : R := t.

Definition weight (t : R) : R := (1 - exp (- int_beta t))%R.

(** ** The training objective *)

Section Objective.

(** [jax_threefry_partitionable] and the inverse error function. *)
Variable partitionable : bool.
Variable erf_inv : R -> R.

(** [var] of [single_loss_fn]. *)
Definition loss_variance (int_beta : R -> R) (t : R) : R :=
  Rmax (1 - exp (- int_beta t)) 1e-5.

(** [y] of [single_loss_fn] for a given noise draw. *)
Definition noised_sample (int_beta : R -> R) (data : tensor) (t : R)
  (noise : tensor) : tensor :=
  let mean := Tensor.scale (exp (- 0.5 * int_beta t)) data in
  let std := sqrt (loss_variance int_beta t) in
  Tensor.add mean (Tensor.scale std noise).

(** The body of [single_loss_fn] once [noise] is drawn. *)
Definition single_loss_of_noise (model : R -> tensor -> tensor)
  (weight int_beta : R -> R) (data : tensor) (t : R) (noise : tensor) : R :=
  let var := loss_variance int_beta t in
  let std := sqrt var in
  let y := noised_sample int_beta data t noise in
  let pred := model t y in
  (weight t
   * Tensor.mean (Tensor.square (Tensor.add pred (Tensor.div_scalar noise std))))%R.

Definition single_loss_fn (model : R -> tensor -> tensor)
  (weight int_beta : R -> R) (data : tensor) (t : R) (k : key) : R :=
  let noise := Sampling.normal erf_inv partitionable k (length data) in
  single_loss_of_noise model weight int_beta data t noise.

(** [jax.vmap(f)(xs, ys, zs)]: the mapped axes must have one size. *)
Fixpoint vmap3 {A B C D : Type} (f : A -> B -> C -> D)
  (xs : list A) (ys : list B) (zs : list C) : result (list D) :=
  match xs, ys, zs with
  | [], [], [] => Ok []
  | x :: xs', y :: ys', z :: zs' =>
      let* rest := vmap3 f xs' ys' zs' in Ok (f x y z :: rest)
  | _, _, _ => Raise ValueError
  end.

(** [tkey, losskey = jax.random.split(key)]. *)
Definition time_key (k : key) : key :=
  nth 0 (JaxRandom.split partitionable k 2) k.

Definition loss_key (k : key) : key :=
  nth 1 (JaxRandom.split partitionable k 2) k.

(** [losskey = jax.random.split(losskey, batch_size)]. *)
Definition noise_keys (batch_size : nat) (k : key) : list key :=
  JaxRandom.split partitionable (loss_key k) batch_size.

(** The draw [jax.random.uniform(tkey, (batch_size,), 0, t1 / batch_size)]. *)
Definition time_offsets (batch_size : nat) (t1 : R) (k : key)
  : result tensor :=
  let* maxval := py_div t1 batch_size in
  Ok (Sampling.uniform partitionable (time_key k) batch_size 0 maxval).

(** [t + (t1 / batch_size) * jnp.arange(batch_size)]. *)
Definition stratify (batch_size : nat) (t1 : R) (t : tensor) : result tensor :=
  let* width := py_div t1 batch_size in
  Ok (Tensor.add t (Tensor.scale width (Tensor.arange batch_size))).

(** The times [t] of [batch_loss_fn]. *)
Definition batch_times (batch_size : nat) (t1 : R) (k : key) : result tensor :=
  let* t := time_offsets batch_size t1 k in
  stratify batch_size t1 t.

Definition batch_loss_fn (model : R -> tensor -> tensor)
  (weight int_beta : R -> R) (data : list tensor) (t1 : R) (k : key)
  : result R :=
  let batch_size := length data in
  let losskey := noise_keys batch_size k in
  let* t := batch_times batch_size t1 k in
  let loss_fn := single_loss_fn model weight int_beta in
  let* losses := vmap3 loss_fn data t losskey in
  Ok (Tensor.mean losses).

(** *** The optimisation step *)

Section MakeStep.

Variables Model Grads Updates OptState : Type.

(** The network applied to values, the gradient of a loss with respect to
    the network, the optimiser's update rule and [eqx.apply_updates]. *)
Variable forward : Model -> R -> tensor -> tensor.
Variable filter_grad : (Model -> result R) -> Model -> Grads.
Variable optim_update : Grads -> OptState -> Updates * OptState.
Variable apply_updates : Model -> Updates -> Model.

(** [key = jax.random.split(key, 1)[0]]. *)
Definition next_key (k : key) : key :=
  nth 0 (JaxRandom.split partitionable k 1) k.

Definition make_step (model : Model) (weight int_beta : R -> R)
  (data : list tensor) (t1 : R) (k : key) (opt_state : OptState)
  : result (R * Model * key * OptState) :=
  let loss_fn := fun m => batch_loss_fn (forward m) weight int_beta data t1 k in
  let* loss := loss_fn model in
  let grads := filter_grad loss_fn model in
  let '(updates, opt_state) := optim_update grads opt_state in
  let model := apply_updates model updates in
  let k := next_key k in
  Ok (loss, model, k, opt_state).

End MakeStep.

End Objective.

(** ** The time sampling in binary floating point *)

Module Float64.

Definition prec : Z := 53.
Definition emax : Z := 1024.

Definition of_Z (n : Z) : spec_float := binary_normalize prec emax n 0 false.

Definition div (x y : spec_float) : spec_float := SFdiv prec emax x y.

End Float64.

Module Float32.

Definition prec : Z := 24.
Definition emax : Z := 128.

Definition of_Z (n : Z) : spec_float := binary_normalize prec emax n 0 false.

(** Conversion of a binary64 value, rounding to nearest even. *)
Definition of_float64 (x : spec_float) : spec_float :=
  match x with
  | S754_finite s m e => binary_round prec emax s m e
  | _ => x
  end.

Definition add (x y : spec_float) : spec_float := SFadd prec emax x y.
Definition sub (x y : spec_float) : spec_float := SFsub prec emax x y.
Definition mul (x y : spec_float) : spec_float := SFmul prec emax x y.

Definition max (x y : spec_float) : spec_float := if SFltb x y then y else x.

(** The float of the pattern [w] (sign bit clear, normal). *)
Definition bitcast_convert (w : Z) : spec_float :=
  let mantissa := Z.land w 0x7FFFFF in
  let exponent := Z.land (Z.shiftr w 23) 0xFF in
  binary_normalize prec emax (mantissa + 2 ^ 23) (exponent - 127 - 23) false.

End Float32.

(** [jax.random.uniform] on binary32 values. *)
Definition uniform32 (partitionable : bool) (k : key) (n : nat)
  (minval maxval : spec_float) : list spec_float :=
  map (fun bits =>
         let float_bits := Z.lor (U32.shift_right_logical bits 9) 0x3F800000 in
         let floats :=
           Float32.sub (Float32.bitcast_convert float_bits) (Float32.of_Z 1) in
         Float32.max minval
           (Float32.add (Float32.mul floats (Float32.sub maxval minval)) minval))
      (JaxRandom.random_bits partitionable k n).

(** The times [t] of [batch_loss_fn] on binary32 values; [t1] is a Python
    float (binary64) and [t1 / batch_size] is computed in binary64. *)
Definition batch_times32 (partitionable : bool) (batch_size : nat)
  (t1 : spec_float) (k : key) : result (list spec_float) :=
  if Nat.eqb batch_size 0 then Raise ZeroDivisionError
  else
    let width :=
      Float32.of_float64
        (Float64.div t1 (Float64.of_Z (Z.of_nat batch_size))) in
    let t :=
      uniform32 partitionable (time_key partitionable k) batch_size
        (Float32.of_Z 0) width in
    Ok (Tensor.map2 Float32.add t
          (map (fun i => Float32.mul width (Float32.of_Z (Z.of_nat i)))
               (seq 0 batch_size))).

(** [weight] of the [__main__] block on binary32 values, the times being
    binary32: [1 - jnp.exp(-int_beta(t))] with [int_beta] the identity.
    [exp32] is the exponential of the library. *)
Definition weight32 (exp32 : spec_float -> spec_float) (t : spec_float)
  : spec_float :=
  Float32.sub (Float32.of_Z 1) (exp32 (SFopp t)).

(** ** The score network: layers and their shapes

    The network's weights are drawn by the layer constructors of the
    equinox library; what the program itself fixes is how the layers are
    sized and chained.  Each layer is the record of its sizes (and of the
    key its weights are drawn from), and applying a layer is followed on
    shapes: [Raise ValueError] is the shape error the library raises. *)

Definition shape : Type := list nat.

Definition shape_eqb (a b : shape) : bool :=
  if list_eq_dec Nat.eq_dec a b then true else false.

Module Layers.

Record Conv2d : Type := {
  conv_in_channels : nat;
  conv_out_channels : nat;
  conv_kernel_size : nat;
  conv_stride : nat;
  conv_key : key
}.

Record ConvTranspose2d : Type := {
  convt_in_channels : nat;
  convt_out_channels : nat;
  convt_kernel_size : nat;
  convt_stride : nat;
  convt_key : key
}.

Record MLP : Type := {
  mlp_in_size : nat;
  mlp_out_size : nat;
  mlp_width_size : nat;
  mlp_depth : nat;
  mlp_key : key
}.

Record LayerNorm : Type := {
  norm_shape : shape
}.

(** The constructors.  [eqx.nn.Linear] draws its weights within
    [lim = 1 / math.sqrt(in_features)], a division of Python floats that
    raises [ZeroDivisionError] for [in_features = 0]; the sizes of the other
    layers are not divided by in Python (the convolutions compute their bound
    on numpy floats, where a division by zero is no exception). *)
Definition Linear_init (in_features out_features : nat) : result unit :=
  if in_features =? 0 then Raise ZeroDivisionError else Ok tt.

(** [eqx.nn.MLP(in_size, out_size, width_size, depth, key=key)]: the linear
    layers [in_size -> width_size], [depth - 1] times
    [width_size -> width_size], and [width_size -> out_size]; for
    [depth = 0] the one layer [in_size -> out_size]. *)
Definition MLP_init (in_size out_size width_size depth : nat) (k : key)
  : result MLP :=
  let* _ :=
    match depth with
    | O => Linear_init in_size out_size
    | S d =>
        let* _ := Linear_init in_size width_size in
        let* _ := (if d =? 0 then Ok tt
                   else Linear_init width_size width_size) in
        Linear_init width_size out_size
    end in
  Ok {| mlp_in_size := in_size; mlp_out_size := out_size;
        mlp_width_size := width_size; mlp_depth := depth; mlp_key := k |}.

(** [[f(x) for x in xs]]: the first exception ends the comprehension. *)
Fixpoint for_each {A B : Type} (f : A -> result B) (xs : list A)
  : result (list B) :=
  match xs with
  | [] => Ok []
  | x :: xs' =>
      let* y := f x in
      let* ys := for_each f xs' in
      Ok (y :: ys)
  end.

(** One spatial extent through an unpadded convolution. *)
Definition conv_extent (n kernel stride : nat) : result nat :=
  if (n <? kernel) || (stride =? 0) then Raise ValueError
  else Ok ((n - kernel) / stride + 1).

(** One spatial extent through an unpadded transposed convolution. *)
Definition convt_extent (n kernel stride : nat) : result nat :=
  if n =? 0 then Raise ValueError
  else Ok ((n - 1) * stride + kernel).

Definition Conv2d_call (c : Conv2d) (x : shape) : result shape :=
  match x with
  | [channels; h; w] =>
      if channels =? conv_in_channels c then
        let* h' := conv_extent h (conv_kernel_size c) (conv_stride c) in
        let* w' := conv_extent w (conv_kernel_size c) (conv_stride c) in
        Ok [conv_out_channels c; h'; w']
      else Raise ValueError
  | _ => Raise ValueError
  end.

Definition ConvTranspose2d_call (c : ConvTranspose2d) (x : shape)
  : result shape :=
  match x with
  | [channels; h; w] =>
      if channels =? convt_in_channels c then
        let* h' := convt_extent h (convt_kernel_size c) (convt_stride c) in
        let* w' := convt_extent w (convt_kernel_size c) (convt_stride c) in
        Ok [convt_out_channels c; h'; w']
      else Raise ValueError
  | _ => Raise ValueError
  end.

Definition MLP_call (m : MLP) (x : shape) : result shape :=
  match x with
  | [n] => if n =? mlp_in_size m then Ok [mlp_out_size m] else Raise ValueError
  | _ => Raise ValueError
  end.

Definition LayerNorm_call (l : LayerNorm) (x : shape) : result shape :=
  if shape_eqb x (norm_shape l) then Ok x else Raise ValueError.

(** [jax.vmap(f)(x)]: [f] along the leading axis. *)
Definition vmap (f : shape -> result shape) (x : shape) : result shape :=
  match x with
  | n :: rest => let* r := f rest in Ok (n :: r)
  | [] => Raise ValueError
  end.

(** Broadcasting of two shapes, innermost axis first. *)
Fixpoint broadcast_rev (a b : shape) : result shape :=
  match a, b with
  | [], _ => Ok b
  | _, [] => Ok a
  | x :: a', y :: b' =>
      let* r := broadcast_rev a' b' in
      if x =? y then Ok (x :: r)
      else if x =? 1 then Ok (y :: r)
      else if y =? 1 then Ok (x :: r)
      else Raise ValueError
  end.

(** The shape of [x + y]. *)
Definition add (x y : shape) : result shape :=
  let* r := broadcast_rev (rev x) (rev y) in Ok (rev r).

(** [einops.rearrange(y, "c p -> p c")]. *)
Definition transpose (x : shape) : result shape :=
  match x with
  | [c; p] => Ok [p; c]
  | _ => Raise ValueError
  end.

(** [einops.rearrange(y, "c h w -> c (h w)")]. *)
Definition flatten_patches (x : shape) : result shape :=
  match x with
  | [c; h; w] => Ok [c; h * w]
  | _ => Raise ValueError
  end.

(** [einops.rearrange(y, "c (h w) -> c h w", h=.., w=..)]. *)
Definition unflatten_patches (x : shape) (h w : nat) : result shape :=
  match x with
  | [c; n] => if n =? h * w then Ok [c; h; w] else Raise ValueError
  | _ => Raise ValueError
  end.

(** [einops.repeat(t, "-> 1 h w", h=.., w=..)]. *)
Definition repeat_plane (t : shape) (h w : nat) : result shape :=
  match t with
  | [] => Ok [1; h; w]
  | _ => Raise ValueError
  end.

(** [jnp.concatenate([x, y])] along the leading axis. *)
Definition concatenate (x y : shape) : result shape :=
  match x, y with
  | n :: xs, m :: ys =>
      if shape_eqb xs ys then Ok ((n + m) :: xs) else Raise ValueError
  | _, _ => Raise ValueError
  end.

End Layers.

Section Network.

Import Layers.

Variable partitionable : bool.

Record MixerBlock : Type := {
  patch_mixer : MLP;
  hidden_mixer : MLP;
  norm1 : LayerNorm;
  norm2 : LayerNorm
}.

Definition MixerBlock_init (num_patches hidden_size mix_patch_size
  mix_hidden_size : nat) (k : key) : result MixerBlock :=
  let keys := JaxRandom.split partitionable k 2 in
  let* patch_mixer :=
    MLP_init num_patches num_patches mix_patch_size 1 (nth 0 keys k) in
  let* hidden_mixer :=
    MLP_init hidden_size hidden_size mix_hidden_size 1 (nth 1 keys k) in
  Ok {| patch_mixer := patch_mixer;
        hidden_mixer := hidden_mixer;
        norm1 := {| norm_shape := [hidden_size; num_patches] |};
        norm2 := {| norm_shape := [num_patches; hidden_size] |} |}.

Definition MixerBlock_call (b : MixerBlock) (y : shape) : result shape :=
  let* n := LayerNorm_call (norm1 b) y in
  let* m := vmap (MLP_call (patch_mixer b)) n in
  let* y := add y m in
  let* y := transpose y in
  let* n := LayerNorm_call (norm2 b) y in
  let* m := vmap (MLP_call (hidden_mixer b)) n in
  let* y := add y m in
  transpose y.

Record Mixer2d : Type := {
  conv_in : Conv2d;
  conv_out : ConvTranspose2d;
  blocks : list MixerBlock;
  norm : LayerNorm;
  t1 : R
}.

Definition Mixer2d_init (img_size : nat * nat * nat) (patch_size hidden_size
  mix_patch_size mix_hidden_size num_blocks : nat) (t1 : R) (k : key)
  : result Mixer2d :=
  let '(input_size, height, width) := img_size in
  let* r := py_mod height patch_size in
  let* _ := py_assert (r =? 0) in
  let* r := py_mod width patch_size in
  let* _ := py_assert (r =? 0) in
  let num_patches := (height / patch_size) * (width / patch_size) in
  let keys := JaxRandom.split partitionable k (2 + num_blocks) in
  let inkey := nth 0 keys k in
  let outkey := nth 1 keys k in
  let bkeys := skipn 2 keys in
  let conv_in := {| conv_in_channels := input_size + 1;
                    conv_out_channels := hidden_size;
                    conv_kernel_size := patch_size;
                    conv_stride := patch_size;
                    conv_key := inkey |} in
  let conv_out := {| convt_in_channels := hidden_size;
                     convt_out_channels := input_size;
                     convt_kernel_size := patch_size;
                     convt_stride := patch_size;
                     convt_key := outkey |} in
  let* blocks :=
    for_each (MixerBlock_init num_patches hidden_size mix_patch_size
                mix_hidden_size) bkeys in
  Ok {| conv_in := conv_in;
        conv_out := conv_out;
        blocks := blocks;
        norm := {| norm_shape := [hidden_size; num_patches] |};
        t1 := t1 |}.

(** The blocks in sequence: [for block in self.blocks: y = block(y)]. *)
Fixpoint apply_blocks (bs : list MixerBlock) (y : shape) : result shape :=
  match bs with
  | [] => Ok y
  | b :: bs' => let* y := MixerBlock_call b y in apply_blocks bs' y
  end.

(** [Mixer2d.__call__] on the shapes of [t] and [y]; the scaling
    [t = t / self.t1] leaves the shape of [t] as it is. *)
Definition Mixer2d_call (m : Mixer2d) (t y : shape) : result shape :=
  match y with
  | [_; height; width] =>
      let* t := repeat_plane t height width in
      let* y := concatenate y t in
      let* y := Conv2d_call (conv_in m) y in
      match y with
      | [_; patch_height; patch_width] =>
          let* y := flatten_patches y in
          let* y := apply_blocks (blocks m) y in
          let* y := LayerNorm_call (norm m) y in
          let* y := unflatten_patches y patch_height patch_width in
          ConvTranspose2d_call (conv_out m) y
      | _ => Raise ValueError
      end
  | _ => Raise ValueError
  end.

End Network.

(** ** The data statistics and the post-processing of samples
    (the [__main__] block) *)

Module Data.

(** [jnp.std]: the square root of the mean squared deviation. *)
Definition std (x : tensor) : R :=
  sqrt (Tensor.mean (Tensor.square (map (fun v => v - Tensor.mean x)%R x))).

(** [jnp.max] and [jnp.min]; an empty array has no maximum. *)
Definition max (x : tensor) : result R :=
  match x with
  | [] => Raise ValueError
  | a :: rest => Ok (fold_left Rmax rest a)
  end.

Definition min (x : tensor) : result R :=
  match x with
  | [] => Raise ValueError
  | a :: rest => Ok (fold_left Rmin rest a)
  end.

(** [jnp.clip(x, lo, hi)]. *)
Definition clip (x : tensor) (lo hi : R) : tensor :=
  map (fun v => Rmin (Rmax v lo) hi) x.

Record stats : Type := {
  data_mean : R;
  data_std : R;
  data_max : R;
  data_min : R
}.

(** [data_mean], [data_std], [data_max] and [data_min] of the data set. *)
Definition statistics (data : tensor) : result stats :=
  let* mx := max data in
  let* mn := min data in
  Ok {| data_mean := Tensor.mean data; data_std := std data;
        data_max := mx; data_min := mn |}.

(** [data = (data - data_mean) / data_std]. *)
Definition normalise (s : stats) (data : tensor) : tensor :=
  map (fun v => (v - data_mean s) / data_std s)%R data.

(** [sample = data_mean + data_std * sample], then
    [jnp.clip(sample, data_min, data_max)]. *)
Definition postprocess (s : stats) (sample : tensor) : tensor :=
  clip (map (fun v => data_mean s + data_std s * v)%R sample)
       (data_min s) (data_max s).

(** The shape of the montage: the samples are one per key of
    [jax.random.split(sample_key, sample_size**2)], each of the data's
    shape, and are laid out by
    [einops.rearrange(sample, "(n1 n2) 1 h w -> (n1 h) (n2 w)")]; as for
    the layers, [Raise ValueError] is the shape error the library raises. *)
Definition montage (x : shape) (n1 n2 : nat) : result shape :=
  match x with
  | [n; one; h; w] =>
      if (n =? n1 * n2) && (one =? 1) then Ok [n1 * h; n2 * w]
      else Raise ValueError
  | _ => Raise ValueError
  end.

Definition sample_grid (data_shape : shape) (sample_size : nat)
  : result shape :=
  montage ((sample_size ^ 2) :: data_shape) sample_size sample_size.

End Data.

(** ** The training loop (the [__main__] block) *)

(** The running totals, the loss history and the printed lines. *)
Record loss_log : Type := {
  total_value : R;
  total_size : nat;
  losses : list R;
  printed : list (nat * R)
}.

Definition empty_log : loss_log :=
  {| total_value := 0; total_size := 0; losses := []; printed := [] |}.

(** The bookkeeping of one iteration, after [make_step] returned [value]. *)
Definition record_loss (num_steps print_every : nat) (lg : loss_log)
  (step : nat) (value : R) : result loss_log :=
  let total_value := (total_value lg + value)%R in
  let total_size := total_size lg + 1 in
  let loss := (total_value / INR total_size)%R in
  let losses := losses lg ++ [loss] in
  let* r := py_mod step print_every in
  if (r =? 0) || (Z.of_nat step =? Z.of_nat num_steps - 1)%Z then
    Ok {| total_value := 0; total_size := 0; losses := losses;
          printed := printed lg ++ [(step, loss)] |}
  else
    Ok {| total_value := total_value; total_size := total_size;
          losses := losses; printed := printed lg |}.

Section TrainingLoop.

Variable partitionable : bool.
Variable erf_inv : R -> R.
Variables Model Grads Updates OptState : Type.
Variable forward : Model -> R -> tensor -> tensor.
Variable filter_grad : (Model -> result R) -> Model -> Grads.
Variable optim_update : Grads -> OptState -> Updates * OptState.
Variable apply_updates : Model -> Updates -> Model.
Variables weight int_beta : R -> R.
Variable t1 : R.

Record train_state : Type := {
  tr_model : Model;
  tr_key : key;
  tr_opt_state : OptState;
  tr_log : loss_log
}.

(** One iteration of the loop. *)
Definition train_body (num_steps print_every : nat) (st : train_state)
  (step : nat) (data : list tensor) : result train_state :=
  let* (value, model, train_key, opt_state) :=
    make_step partitionable erf_inv Model Grads Updates OptState forward
      filter_grad optim_update apply_updates (tr_model st) weight int_beta
      data t1 (tr_key st) (tr_opt_state st) in
  let* lg := record_loss num_steps print_every (tr_log st) step value in
  Ok {| tr_model := model; tr_key := train_key; tr_opt_state := opt_state;
        tr_log := lg |}.

Fixpoint train_loop (num_steps print_every : nat)
  (steps : list (nat * list tensor)) (st : train_state) : result train_state :=
  match steps with
  | [] => Ok st
  | (step, data) :: rest =>
      let* st := train_body num_steps print_every st step data in
      train_loop num_steps print_every rest st
  end.

(** [for step, data in zip(range(num_steps), dataloader(..))]. *)
Definition train (num_steps print_every : nat) (batches : list (list tensor))
  (model : Model) (train_key : key) (opt_state : OptState)
  : result train_state :=
  train_loop num_steps print_every (combine (seq 0 num_steps) batches)
    {| tr_model := model; tr_key := train_key; tr_opt_state := opt_state;
       tr_log := empty_log |}.

(** The steps of the loop without the bookkeeping: the values that
    [make_step] returns on consecutive batches, each step starting from the
    model, key and optimiser state the step before returned. *)
Fixpoint run_steps (batches : list (list tensor)) (model : Model)
  (train_key : key) (opt_state : OptState)
  : result (list R * Model * key * OptState) :=
  match batches with
  | [] => Ok ([], model, train_key, opt_state)
  | data :: rest =>
      let* (value, model, train_key, opt_state) :=
        make_step partitionable erf_inv Model Grads Updates OptState forward
          filter_grad optim_update apply_updates model weight int_beta
          data t1 train_key opt_state in
      let* (values, model, train_key, opt_state) :=
        run_steps rest model train_key opt_state in
      Ok (value :: values, model, train_key, opt_state)
  end.

End TrainingLoop.

(** The bookkeeping alone, over the values of consecutive steps. *)
Fixpoint record_losses (num_steps print_every : nat)
  (steps : list (nat * R)) (lg : loss_log) : result loss_log :=
  match steps with
  | [] => Ok lg
  | (step, value) :: rest =>
      let* lg := record_loss num_steps print_every lg step value in
      record_losses num_steps print_every rest lg
  end.

(** The first step of the window that the step [s] closes. *)
Definition window_start (print_every s : nat) : nat :=
  match s with
  | O => O
  | S s' => (s' / print_every) * print_every + 1
  end.

(** The mean of the values of the steps [a .. s]. *)
Definition window_mean (values : list R) (a s : nat) : R :=
  (Tensor.sum (map (fun j => nth j values 0%R) (seq a (s + 1 - a)))
   / INR (s + 1 - a))%R.

(** Whether the step [s] prints a line and resets the running totals. *)
Definition log_cond (num_steps print_every s : nat) : bool :=
  (s mod print_every =? 0) || (Z.of_nat s =? Z.of_nat num_steps - 1)%Z.

(** The state of the bookkeeping before the step [k]. *)
Definition log_invariant (num_steps print_every : nat) (values : list R)
  (k : nat) (lg : loss_log) : Prop :=
  length (losses lg) = k /\
  (forall s, s < k ->
     nth s (losses lg) 0%R
     = window_mean values (window_start print_every s) s) /\
  printed lg
  = map (fun s => (s, nth s (losses lg) 0%R))
        (filter (log_cond num_steps print_every) (seq 0 k)) /\
  (k < num_steps ->
   total_size lg = k - window_start print_every k /\
   total_value lg
   = Tensor.sum (map (fun j => nth j values 0%R)
                     (seq (window_start print_every k)
                          (k - window_start print_every k)))).

(** The loss as the specification words it, element by element. *)
Definition spec_single_loss (model : R -> tensor -> tensor)
  (weight int_beta : R -> R) (x : tensor) (t : R) (n : tensor) : R :=
  let N := length x in
  let mean := fun i => (nth i x 0 * exp (- 0.5 * int_beta t))%R in
  let variance := Rmax (1 - exp (- int_beta t)) 1e-5 in
  let y := map (fun i => mean i + sqrt variance * nth i n 0)%R (seq 0 N) in
  let pred := model t y in
  (weight t
   * (Tensor.sum
        (map (fun i => (nth i pred 0 + nth i n 0 / sqrt variance) ^ 2)%R
             (seq 0 N))
      / INR N))%R.

(** ** Notions used in the proofs about the generator *)

(** A positive binary32 time at which the weight is computed as zero by
    every exponential whose value lies between the rounded bounds [1 - t]
    and [1] (over the reals [1 - t <= exp (- t) <= 1]). *)
Definition weight32_vanishes (t : spec_float) : Prop :=
  SFltb (Float32.of_Z 0) t = true /\
  forall exp32 : spec_float -> spec_float,
    SFleb (Float32.sub (Float32.of_Z 1) t) (exp32 (SFopp t)) = true ->
    SFleb (exp32 (SFopp t)) (Float32.of_Z 1) = true ->
    weight32 exp32 t = S754_zero false.

(** A pair of 32-bit words. *)
Definition pair_ok (v : Z * Z) : Prop :=
  U32.in_range (fst v) /\ U32.in_range (snd v).

(** A rotation amount of the cipher. *)
Definition rotation_ok (d : Z) : Prop := (0 < d < 32)%Z.

(** One group of the cipher: four rounds, then a key injection. *)
Definition group (ds : list Z) (ka kb i : Z) (x : Z * Z) : Z * Z :=
  Threefry.inject (fold_left Threefry.apply_round ds x) ka kb i.

(** * Facts about words, the generator and sampling *)

Section WordFacts.
Open Scope Z_scope.

Lemma wrap_range (x : Z) : U32.in_range (U32.wrap x).
Proof. unfold U32.in_range, U32.wrap, U32.modulus. apply Z.mod_pos_bound. reflexivity. Qed.

Lemma add_range (x y : Z) : U32.in_range (U32.add x y).
Proof. apply wrap_range. Qed.

Lemma xor_range (x y : Z) :
  U32.in_range x -> U32.in_range y -> U32.in_range (U32.xor x y).
Proof.
  unfold U32.in_range, U32.xor, U32.modulus. intros [Hx0 Hx] [Hy0 Hy].
  assert (H0 : 0 <= Z.lxor x y) by (apply Z.lxor_nonneg; tauto).
  split; [exact H0|].
  destruct (Z.eq_dec (Z.lxor x y) 0) as [E|E]; [rewrite E; reflexivity|].
  apply Z.log2_lt_pow2; [lia|].
  pose proof (Z.log2_lxor x y Hx0 Hy0) as Hl.
  assert (Z.log2 x < 32).
  { destruct (Z.eq_dec x 0) as [->|]; [reflexivity|]. apply Z.log2_lt_pow2; lia. }
  assert (Z.log2 y < 32).
  { destruct (Z.eq_dec y 0) as [->|]; [reflexivity|]. apply Z.log2_lt_pow2; lia. }
  lia.
Qed.

Lemma shift9_range (b : Z) : U32.in_range b -> 0 <= Z.shiftr b 9 < 2 ^ 23.
Proof.
  unfold U32.in_range, U32.modulus. intros [H0 H1].
  rewrite Z.shiftr_div_pow2 by lia. split.
  - apply Z.div_pos; lia.
  - apply Z.div_lt_upper_bound; [lia|]. change (2 ^ 9 * 2 ^ 23) with (2 ^ 32). exact H1.
Qed.

Lemma lor_exponent (m : Z) :
  0 <= m < 2 ^ 23 -> Z.lor m 0x3F800000 = m + 127 * 2 ^ 23.
Proof.
  intros [H0 H1].
  assert (Hl : Z.land m 0x3F800000 = 0).
  { apply Z.bits_inj'. intros i Hi. rewrite Z.land_spec, Z.bits_0.
    destruct (Z.lt_ge_cases i 23) as [Hlt|Hge].
    - change 0x3F800000 with (Z.shiftl 127 23).
      rewrite Z.shiftl_spec_low by exact Hlt. apply andb_false_r.
    - assert (Hm : Z.testbit m i = false).
      { destruct (Z.eq_dec m 0) as [->|Hne]; [apply Z.bits_0|].
        apply Z.bits_above_log2; [exact H0|].
        assert (Z.log2 m < 23) by (apply Z.log2_lt_pow2; lia). lia. }
      rewrite Hm. reflexivity. }
  pose proof (Z.add_lor_land m 0x3F800000) as Ha. rewrite Hl in Ha.
  change (127 * 2 ^ 23) with 0x3F800000. lia.
Qed.

Lemma float_bits_mantissa (m : Z) :
  0 <= m < 2 ^ 23 -> Z.land (Z.lor m 0x3F800000) 0x7FFFFF = m.
Proof.
  intros Hm. rewrite (lor_exponent m Hm).
  change 0x7FFFFF with (Z.ones 23). rewrite Z.land_ones by lia.
  rewrite Z.mod_add by lia. apply Z.mod_small. exact Hm.
Qed.

Lemma float_bits_exponent (m : Z) :
  0 <= m < 2 ^ 23 -> Z.land (Z.shiftr (Z.lor m 0x3F800000) 23) 0xFF = 127.
Proof.
  intros Hm. rewrite (lor_exponent m Hm).
  rewrite Z.shiftr_div_pow2 by lia. rewrite Z.div_add by lia.
  rewrite Z.div_small by exact Hm. reflexivity.
Qed.

End WordFacts.

Section SamplingFacts.
Open Scope R_scope.

Lemma unit_float_value (b : Z) :
  U32.in_range b ->
  Sampling.unit_float b = IZR (Z.shiftr b 9) / IZR (2 ^ 23).
Proof.
  intros Hb. pose proof (shift9_range b Hb) as Hm.
  unfold Sampling.unit_float, Sampling.bitcast_convert_f32, U32.shift_right_logical.
  rewrite (float_bits_mantissa _ Hm), (float_bits_exponent _ Hm).
  change (127 - 127)%Z with 0%Z. rewrite powerRZ_O. lra.
Qed.

Lemma unit_float_range (b : Z) :
  U32.in_range b -> 0 <= Sampling.unit_float b < 1.
Proof.
  intros Hb. rewrite (unit_float_value b Hb).
  pose proof (shift9_range b Hb) as [H0 H1].
  apply IZR_le in H0. apply IZR_lt in H1.
  assert (Hp : 0 < IZR (2 ^ 23)) by (apply IZR_lt; reflexivity).
  split.
  - apply Rmult_le_pos; [exact H0|]. left. apply Rinv_0_lt_compat. exact Hp.
  - apply (Rmult_lt_reg_r (IZR (2 ^ 23))); [exact Hp|].
    unfold Rdiv. rewrite Rmult_assoc, Rinv_l by lra. lra.
Qed.

End SamplingFacts.

Section GeneratorFacts.

Import JaxRandom.

Lemma threefry2x32_range (k1 k2 x1 x2 : Z) :
  U32.in_range (fst (Threefry.threefry2x32 k1 k2 x1 x2)) /\
  U32.in_range (snd (Threefry.threefry2x32 k1 k2 x1 x2)).
Proof. unfold Threefry.threefry2x32, Threefry.inject. split; apply add_range. Qed.

Lemma pairs_length (l : list Z) : length (pairs l) = Nat.div2 (length l).
Proof.
  enough (H : length (pairs l) = Nat.div2 (length l) /\
              forall a, length (pairs (a :: l)) = Nat.div2 (S (length l)))
    by apply H.
  induction l as [|b rest [IH1 IH2]]; [split; reflexivity|].
  split; [apply IH2|].
  intros a. cbn [pairs length Nat.div2]. f_equal. exact IH1.
Qed.

Lemma removelast_length {A : Type} (l : list A) :
  length (removelast l) = Nat.pred (length l).
Proof.
  rewrite removelast_firstn_len, length_firstn. lia.
Qed.

Lemma Forall_removelast {A : Type} (P : A -> Prop) (l : list A) :
  Forall P l -> Forall P (removelast l).
Proof.
  induction 1 as [|a l Ha Hl IH]; [constructor|].
  destruct l as [|b l']; [constructor|].
  change (removelast (a :: b :: l')) with (a :: removelast (b :: l')).
  constructor; assumption.
Qed.

Lemma threefry_2x32_length (k : key) (count : list Z) :
  length (threefry_2x32 k count) = length count.
Proof.
  unfold threefry_2x32.
  destruct (Nat.odd (length count)) eqn:Hodd.
  - rewrite removelast_length, length_app, !length_map, length_combine,
      length_firstn, length_skipn, length_app. cbn [length].
    apply Nat.odd_spec in Hodd. destruct Hodd as [m Hm]. rewrite Hm.
    replace (2 * m + 1 + 1) with (2 * (m + 1)) by lia.
    rewrite Nat.mul_comm, Nat.div_mul by lia. lia.
  - rewrite length_app, !length_map, length_combine, length_firstn, length_skipn.
    assert (He : Nat.even (length count) = true).
    { rewrite <- Nat.negb_odd, Hodd. reflexivity. }
    apply Nat.even_spec in He. destruct He as [m Hm]. rewrite Hm.
    rewrite Nat.mul_comm, Nat.div_mul by lia. lia.
Qed.

Lemma threefry_2x32_range (k : key) (count : list Z) :
  Forall U32.in_range (threefry_2x32 k count).
Proof.
  unfold threefry_2x32.
  set (out := map _ (combine _ _)).
  assert (Hout : Forall (fun p => U32.in_range (fst p) /\ U32.in_range (snd p)) out).
  { subst out. apply Forall_forall. intros p Hp.
    apply in_map_iff in Hp. destruct Hp as [[a b] [Hab _]]. subst p.
    exact (threefry2x32_range (fst k) (snd k) a b). }
  assert (H : Forall U32.in_range (map fst out ++ map snd out)).
  { clearbody out. apply Forall_app. split.
    - induction Hout as [|p l [Hp _] _ IH]; constructor; assumption.
    - induction Hout as [|p l [_ Hp] _ IH]; constructor; assumption. }
  destruct (Nat.odd (length count)); [apply Forall_removelast|]; exact H.
Qed.

Lemma iota_length (n : nat) : length (iota n) = n.
Proof. unfold iota. rewrite length_map, length_seq. reflexivity. Qed.

Lemma iota_2x32_length (n : nat) : length (iota_2x32 n) = n.
Proof. unfold iota_2x32. rewrite length_map, length_seq. reflexivity. Qed.

Lemma split_original_length (k : key) (num : nat) :
  length (split_original k num) = num.
Proof.
  unfold split_original.
  rewrite pairs_length, threefry_2x32_length, iota_length.
  rewrite Nat.mul_comm. apply Nat.div2_double.
Qed.

Lemma split_foldlike_length (k : key) (num : nat) :
  length (split_foldlike k num) = num.
Proof. unfold split_foldlike. rewrite length_map. apply iota_2x32_length. Qed.

Lemma split_length (p : bool) (k : key) (num : nat) :
  length (split p k num) = num.
Proof.
  destruct p; [apply split_foldlike_length | apply split_original_length].
Qed.

Lemma random_bits_partitionable_length (k : key) (n : nat) :
  length (random_bits_partitionable k n) = n.
Proof.
  unfold random_bits_partitionable. rewrite length_map. apply iota_2x32_length.
Qed.

Lemma random_bits_partitionable_range (k : key) (n : nat) :
  Forall U32.in_range (random_bits_partitionable k n).
Proof.
  unfold random_bits_partitionable. apply Forall_forall. intros b Hb.
  apply in_map_iff in Hb. destruct Hb as [[hi lo] [Hb _]]. subst b.
  pose proof (threefry2x32_range (fst k) (snd k) hi lo) as [H1 H2].
  exact (xor_range _ _ H1 H2).
Qed.

Lemma concat_const_length {A : Type} (c : nat) (ls : list (list A)) :
  Forall (fun l => length l = c) ls -> length (concat ls) = length ls * c.
Proof.
  induction 1 as [|l ls Hl _ IH]; [reflexivity|].
  cbn [concat length]. rewrite length_app, Hl, IH. lia.
Qed.

Lemma blocks_count (M n : Z) :
  (0 < M)%Z -> (0 <= n)%Z ->
  Z.to_nat (n / M) * Z.to_nat M + Z.to_nat (n mod M) = Z.to_nat n.
Proof.
  intros HM Hn.
  pose proof (Z.mod_pos_bound n M HM) as Hr.
  assert (Hq : (0 <= n / M)%Z) by (apply Z.div_pos; lia).
  rewrite <- Z2Nat.inj_mul by lia.
  rewrite <- Z2Nat.inj_add by (try apply Z.mul_nonneg_nonneg; lia).
  f_equal. rewrite Z.mul_comm. symmetry. apply Z.div_mod. lia.
Qed.

Lemma random_bits_original_length (k : key) (n : nat) :
  length (random_bits_original k n) = n.
Proof.
  unfold random_bits_original.
  assert (Hmax : (0 < uint32_max)%Z) by reflexivity.
  pose proof (blocks_count uint32_max (Z.of_nat n) Hmax (Nat2Z.is_nonneg n)) as Hc.
  rewrite Nat2Z.id in Hc.
  generalize dependent uint32_max. intros M HM Hc.
  destruct (Z.eqb_spec (Z.of_nat n / M) 0) as [E|E].
  - rewrite threefry_2x32_length, iota_length.
    rewrite E in Hc. exact Hc.
  - rewrite length_app, threefry_2x32_length, iota_length.
    rewrite (concat_const_length (Z.to_nat M)).
    + rewrite length_map, removelast_length, split_original_length.
      rewrite Nat.add_1_r, Nat.pred_succ. exact Hc.
    + apply Forall_map, Forall_forall. intros sk _.
      rewrite threefry_2x32_length. apply iota_length.
Qed.

Lemma random_bits_original_range (k : key) (n : nat) :
  Forall U32.in_range (random_bits_original k n).
Proof.
  unfold random_bits_original.
  destruct (Z.of_nat n / uint32_max =? 0)%Z.
  - apply threefry_2x32_range.
  - apply Forall_app. split; [|apply threefry_2x32_range].
    apply Forall_concat. apply Forall_forall. intros l Hl.
    apply in_map_iff in Hl. destruct Hl as [sk [Hl _]]. subst l.
    apply threefry_2x32_range.
Qed.

Lemma random_bits_length (p : bool) (k : key) (n : nat) :
  length (random_bits p k n) = n.
Proof.
  destruct p; [apply random_bits_partitionable_length
              | apply random_bits_original_length].
Qed.

Lemma random_bits_range (p : bool) (k : key) (n : nat) :
  Forall U32.in_range (random_bits p k n).
Proof.
  destruct p; [apply random_bits_partitionable_range
              | apply random_bits_original_range].
Qed.

End GeneratorFacts.

Section TensorFacts.
Open Scope R_scope.

Lemma map2_length {A B C : Type} (f : A -> B -> C) (x : list A) (y : list B) :
  length (Tensor.map2 f x y) = Nat.min (length x) (length y).
Proof.
  revert y. induction x as [|a x IH]; intros [|b y]; cbn; try reflexivity.
  f_equal. apply IH.
Qed.

Lemma map2_nth {A B C : Type} (f : A -> B -> C) (x : list A) (y : list B)
  (i : nat) (da : A) (db : B) (dc : C) :
  (i < length x)%nat -> (i < length y)%nat ->
  nth i (Tensor.map2 f x y) dc = f (nth i x da) (nth i y db).
Proof.
  revert y i. induction x as [|a x IH]; intros [|b y] [|i] Hx Hy;
    cbn in *; try lia; [reflexivity|].
  apply IH; lia.
Qed.

Lemma nth_ext_eq {A : Type} (l l' : list A) (d : A) :
  length l = length l' ->
  (forall i, (i < length l)%nat -> nth i l d = nth i l' d) -> l = l'.
Proof.
  intros Hlen H. apply (nth_ext l l' d d Hlen). exact H.
Qed.

Lemma nth_map_seq {A : Type} (f : nat -> A) (n i : nat) (d : A) :
  (i < n)%nat -> nth i (map f (seq 0 n)) d = f i.
Proof.
  intros Hi. rewrite (nth_indep _ d (f O))
    by (rewrite length_map, length_seq; exact Hi).
  rewrite map_nth, seq_nth by exact Hi. reflexivity.
Qed.

Lemma arange_length (n : nat) : length (Tensor.arange n) = n.
Proof. unfold Tensor.arange. rewrite length_map, length_seq. reflexivity. Qed.

Lemma arange_nth (n i : nat) :
  (i < n)%nat -> nth i (Tensor.arange n) 0 = INR i.
Proof.
  intros Hi. unfold Tensor.arange. apply nth_map_seq. exact Hi.
Qed.

Lemma scale_length (c : R) (x : tensor) : length (Tensor.scale c x) = length x.
Proof. apply length_map. Qed.

Lemma scale_nth (c : R) (x : tensor) (i : nat) :
  nth i (Tensor.scale c x) 0 = c * nth i x 0.
Proof.
  unfold Tensor.scale. rewrite <- (Rmult_0_r c) at 1.
  apply (map_nth (fun v => c * v)).
Qed.

End TensorFacts.

Section UniformFacts.
Open Scope R_scope.

Variable p : bool.

Lemma uniform_length (k : key) (n : nat) (lo hi : R) :
  length (Sampling.uniform p k n lo hi) = n.
Proof.
  unfold Sampling.uniform. rewrite length_map. apply random_bits_length.
Qed.

Lemma uniform_range (k : key) (n : nat) (lo hi : R) :
  lo < hi -> Forall (fun u => lo <= u < hi) (Sampling.uniform p k n lo hi).
Proof.
  intros Hlt. unfold Sampling.uniform.
  pose proof (random_bits_range p k n) as Hb.
  induction Hb as [|b l Hb _ IH]; cbn [map]; constructor; [|exact IH].
  pose proof (unit_float_range b Hb) as [H0 H1].
  assert (0 <= Sampling.unit_float b * (hi - lo)) by (apply Rmult_le_pos; lra).
  assert (Sampling.unit_float b * (hi - lo) < hi - lo) by nra.
  unfold Rmax. destruct (Rle_dec lo _); lra.
Qed.

Lemma uniform_nth_range (k : key) (n : nat) (lo hi : R) (i : nat) :
  lo < hi -> (i < n)%nat ->
  lo <= nth i (Sampling.uniform p k n lo hi) 0 < hi.
Proof.
  intros Hlt Hi.
  pose proof (uniform_range k n lo hi Hlt) as HF.
  rewrite Forall_forall in HF. apply HF. apply nth_In.
  rewrite uniform_length. exact Hi.
Qed.

Lemma py_div_ok (a : R) (b : nat) : b <> O -> py_div a b = Ok (a / INR b).
Proof.
  intros Hb. unfold py_div. destruct (Nat.eqb_spec b 0); [contradiction|reflexivity].
Qed.

Lemma time_offsets_ok (B : nat) (t1 : R) (k : key) :
  B <> O ->
  time_offsets p B t1 k
  = Ok (Sampling.uniform p (time_key p k) B 0 (t1 / INR B)).
Proof. intros HB. unfold time_offsets. rewrite (py_div_ok _ _ HB). reflexivity. Qed.

Lemma stratify_ok (B : nat) (t1 : R) (u : tensor) :
  B <> O -> length u = B ->
  stratify B t1 u
  = Ok (map (fun i => nth i u 0 + INR i * (t1 / INR B)) (seq 0 B)).
Proof.
  intros HB Hu. unfold stratify. rewrite (py_div_ok _ _ HB). cbn [bind].
  f_equal. apply (nth_ext_eq _ _ 0).
  - unfold Tensor.add. rewrite map2_length, scale_length, arange_length,
      length_map, length_seq, Hu. apply Nat.min_id.
  - intros i Hi. unfold Tensor.add in *.
    rewrite map2_length, scale_length, arange_length, Hu, Nat.min_id in Hi.
    rewrite (map2_nth Rplus _ _ i 0 0 0)
      by (rewrite ?scale_length, ?arange_length; lia).
    rewrite scale_nth, (arange_nth B i Hi).
    rewrite (nth_map_seq _ B i 0 Hi). lra.
Qed.

Lemma batch_times_ok (B : nat) (t1 : R) (k : key) :
  B <> O ->
  batch_times p B t1 k
  = Ok (map (fun i => nth i (Sampling.uniform p (time_key p k) B 0 (t1 / INR B)) 0
                      + INR i * (t1 / INR B)) (seq 0 B)).
Proof.
  intros HB. unfold batch_times. rewrite (time_offsets_ok B t1 k HB). cbn [bind].
  apply stratify_ok; [exact HB | apply uniform_length].
Qed.

End UniformFacts.

(** ** Known answers

    The block function against the Random123 test vectors, and the key
    and sampling operations against the values JAX documents for seed 0. *)

Section KnownAnswers.

Example threefry2x32_known_answers :
  Threefry.threefry2x32 0 0 0 0 = (0x6b200159, 0x99ba4efe)%Z /\
  Threefry.threefry2x32 0xffffffff 0xffffffff 0xffffffff 0xffffffff
  = (0x1cb996fc, 0xbb002be7)%Z /\
  Threefry.threefry2x32 0x13198a2e 0x03707344 0x243f6a88 0x85a308d3
  = (0xc4923a9c, 0x483df7a0)%Z.
Proof. vm_compute. repeat split. Qed.

Example split_original_seed0 :
  JaxRandom.split false (PRNGKey 0) 2
  = [(4146024105, 967050713); (2718843009, 1272950319)]%Z.
Proof. vm_compute. reflexivity. Qed.

Example split_foldlike_seed0 :
  JaxRandom.split true (PRNGKey 0) 2
  = [(1797259609, 2579123966); (928981903, 3453687069)]%Z.
Proof. vm_compute. reflexivity. Qed.

Example uniform_original_seed0 :
  Sampling.uniform false (PRNGKey 0) 1 0 1 = [0.41845703125%R].
Proof.
  unfold Sampling.uniform.
  assert (Hb : JaxRandom.random_bits false (PRNGKey 0) 1 = [1797259609%Z])
    by (vm_compute; reflexivity).
  rewrite Hb. cbn [map]. f_equal.
  rewrite unit_float_value by (unfold U32.in_range, U32.modulus; lia).
  change (Z.shiftr 1797259609 9) with 3510272%Z.
  change (2 ^ 23)%Z with 8388608%Z.
  rewrite Rmax_right; lra.
Qed.

(** The same draw on binary32 values: 14041088 * 2^-25 = 0.41845703125. *)
Example uniform32_original_seed0 :
  uniform32 false (PRNGKey 0) 1 (Float32.of_Z 0) (Float32.of_Z 1)
  = [S754_finite false 14041088 (-25)].
Proof. vm_compute. reflexivity. Qed.

End KnownAnswers.

(** * The block function is injective in its counter *)

Section Injectivity.
Open Scope Z_scope.

Lemma add_inj_l (k x x' : Z) :
  U32.in_range x -> U32.in_range x' -> U32.add x k = U32.add x' k -> x = x'.
Proof.
  unfold U32.in_range, U32.add, U32.wrap, U32.modulus.
  change (2 ^ 32) with 4294967296. intros Hx Hx' E.
  Z.to_euclidean_division_equations. lia.
Qed.

Lemma lxor_cancel_l (a x y : Z) : Z.lxor a x = Z.lxor a y -> x = y.
Proof.
  intros E. apply (f_equal (Z.lxor a)) in E.
  rewrite <- !Z.lxor_assoc, Z.lxor_nilpotent, !Z.lxor_0_l in E. exact E.
Qed.

Lemma lor_low (a b d : Z) :
  0 <= d -> a mod 2 ^ d = 0 -> 0 <= b < 2 ^ d -> Z.lor a b = a + b.
Proof.
  intros Hd Ha [Hb0 Hb1].
  assert (Hl : Z.land a b = 0).
  { apply Z.bits_inj'. intros i Hi. rewrite Z.land_spec, Z.bits_0.
    destruct (Z.lt_ge_cases i d) as [Hlt|Hge].
    - assert (Hai : Z.testbit a i = false).
      { rewrite <- (Z.mod_pow2_bits_low a d i) by lia. rewrite Ha. apply Z.bits_0. }
      rewrite Hai. reflexivity.
    - assert (Hbi : Z.testbit b i = false).
      { destruct (Z.eq_dec b 0) as [->|Hne]; [apply Z.bits_0|].
        apply Z.bits_above_log2; [exact Hb0|].
        assert (Z.log2 b < d) by (apply Z.log2_lt_pow2; lia). lia. }
      rewrite Hbi. apply andb_false_r. }
  pose proof (Z.add_lor_land a b) as H. rewrite Hl in H. lia.
Qed.

Lemma rotate_left_sum (x d : Z) :
  0 < d < 32 -> U32.in_range x ->
  U32.rotate_left x d = (x mod 2 ^ (32 - d)) * 2 ^ d + x / 2 ^ (32 - d) /\
  0 <= x / 2 ^ (32 - d) < 2 ^ d.
Proof.
  intros Hd [Hx0 Hx1]. unfold U32.modulus in Hx1.
  assert (Hpow : 2 ^ 32 = 2 ^ (32 - d) * 2 ^ d).
  { rewrite <- Z.pow_add_r by lia. f_equal. lia. }
  assert (HP : 0 < 2 ^ d) by (apply Z.pow_pos_nonneg; lia).
  assert (HQ : 0 < 2 ^ (32 - d)) by (apply Z.pow_pos_nonneg; lia).
  assert (Hhi : 0 <= x / 2 ^ (32 - d) < 2 ^ d).
  { split; [apply Z.div_pos; lia|].
    apply Z.div_lt_upper_bound; [exact HQ|]. rewrite <- Hpow. exact Hx1. }
  split; [|exact Hhi].
  unfold U32.rotate_left, U32.wrap, U32.modulus, U32.width.
  rewrite Z.shiftl_mul_pow2, Z.shiftr_div_pow2 by lia.
  rewrite Hpow, Z.mul_mod_distr_r by lia.
  apply (lor_low _ _ d); [lia | apply Z.mod_mul; lia | exact Hhi].
Qed.

Lemma rotate_left_range (x d : Z) :
  0 < d < 32 -> U32.in_range x -> U32.in_range (U32.rotate_left x d).
Proof.
  intros Hd Hx. destruct (rotate_left_sum x d Hd Hx) as [E [H0 H1]].
  rewrite E. unfold U32.in_range, U32.modulus.
  assert (Hpow : 2 ^ 32 = 2 ^ (32 - d) * 2 ^ d).
  { rewrite <- Z.pow_add_r by lia. f_equal. lia. }
  assert (HQ : 0 < 2 ^ (32 - d)) by (apply Z.pow_pos_nonneg; lia).
  pose proof (Z.mod_pos_bound x (2 ^ (32 - d)) HQ) as [L0 L1].
  rewrite Hpow. nia.
Qed.

Lemma rotate_left_inj (x x' d : Z) :
  0 < d < 32 -> U32.in_range x -> U32.in_range x' ->
  U32.rotate_left x d = U32.rotate_left x' d -> x = x'.
Proof.
  intros Hd Hx Hx' E.
  destruct (rotate_left_sum x d Hd Hx) as [E1 [H0 H1]].
  destruct (rotate_left_sum x' d Hd Hx') as [E1' [H0' H1']].
  rewrite E1, E1' in E.
  assert (HP : 0 < 2 ^ d) by (apply Z.pow_pos_nonneg; lia).
  assert (HQ : 0 < 2 ^ (32 - d)) by (apply Z.pow_pos_nonneg; lia).
  assert (Ehi : x / 2 ^ (32 - d) = x' / 2 ^ (32 - d)).
  { apply (f_equal (fun z => z mod 2 ^ d)) in E. cbn beta in E.
    rewrite !(Z.add_comm (_ * 2 ^ d)), !Z.mod_add, !Z.mod_small in E by lia.
    exact E. }
  assert (Elo : x mod 2 ^ (32 - d) = x' mod 2 ^ (32 - d)).
  { rewrite Ehi in E. apply Z.add_cancel_r in E.
    apply Z.mul_cancel_r in E; [exact E | lia]. }
  rewrite (Z.div_mod x (2 ^ (32 - d))), (Z.div_mod x' (2 ^ (32 - d))) by lia.
  rewrite Ehi, Elo. reflexivity.
Qed.

Lemma apply_round_ok (v : Z * Z) (d : Z) :
  rotation_ok d -> pair_ok v -> pair_ok (Threefry.apply_round v d).
Proof.
  intros Hd [H1 H2]. unfold Threefry.apply_round. split; cbn [fst snd].
  - apply add_range.
  - apply xor_range; [apply add_range | apply rotate_left_range; assumption].
Qed.

Lemma apply_round_inj (v v' : Z * Z) (d : Z) :
  rotation_ok d -> pair_ok v -> pair_ok v' ->
  Threefry.apply_round v d = Threefry.apply_round v' d -> v = v'.
Proof.
  intros Hd [H1 H2] [H1' H2'] E. destruct v as [a b], v' as [a' b'].
  cbn [fst snd] in *. unfold Threefry.apply_round in E. cbn [fst snd] in E.
  injection E as E0 E1. rewrite E0 in E1. unfold U32.xor in E1.
  apply lxor_cancel_l in E1.
  apply (rotate_left_inj b b' d Hd H2 H2') in E1. subst b'.
  apply (add_inj_l b a a' H1 H1') in E0. subst a'. reflexivity.
Qed.

Lemma rounds_ok (ds : list Z) (v : Z * Z) :
  Forall rotation_ok ds -> pair_ok v ->
  pair_ok (fold_left Threefry.apply_round ds v).
Proof.
  intros Hds. revert v. induction Hds as [|d ds Hd _ IH]; intros v Hv;
    [exact Hv|].
  cbn [fold_left]. apply IH. apply apply_round_ok; assumption.
Qed.

Lemma rounds_inj (ds : list Z) (v v' : Z * Z) :
  Forall rotation_ok ds -> pair_ok v -> pair_ok v' ->
  fold_left Threefry.apply_round ds v = fold_left Threefry.apply_round ds v' ->
  v = v'.
Proof.
  intros Hds. revert v v'. induction Hds as [|d ds Hd _ IH]; intros v v' Hv Hv' E;
    [exact E|].
  cbn [fold_left] in E. apply IH in E; try (apply apply_round_ok; assumption).
  apply (apply_round_inj v v' d Hd Hv Hv' E).
Qed.

Lemma rotations0_ok : Forall rotation_ok Threefry.rotations0.
Proof. repeat constructor. Qed.

Lemma rotations1_ok : Forall rotation_ok Threefry.rotations1.
Proof. repeat constructor. Qed.

Lemma inject_ok (x : Z * Z) (ka kb i : Z) : pair_ok (Threefry.inject x ka kb i).
Proof. unfold Threefry.inject. split; apply add_range. Qed.

Lemma inject_inj (x x' : Z * Z) (ka kb i : Z) :
  pair_ok x -> pair_ok x' ->
  Threefry.inject x ka kb i = Threefry.inject x' ka kb i -> x = x'.
Proof.
  intros [H1 H2] [H1' H2'] E. destruct x as [a b], x' as [a' b'].
  cbn [fst snd] in *. unfold Threefry.inject in E. cbn [fst snd] in E.
  injection E as E0 E1.
  apply (add_inj_l ka a a' H1 H1') in E0.
  unfold U32.add, U32.wrap, U32.modulus in E1.
  unfold U32.in_range, U32.modulus in H2, H2'.
  change (2 ^ 32) with 4294967296 in *.
  rewrite Zplus_mod_idemp_l in E1. rewrite (Zplus_mod_idemp_l (b' + kb)) in E1.
  assert (b = b') by (Z.to_euclidean_division_equations; lia). congruence.
Qed.

Lemma group_ok (ds : list Z) (ka kb i : Z) (x : Z * Z) :
  pair_ok (group ds ka kb i x).
Proof. apply inject_ok. Qed.

Lemma group_inj (ds : list Z) (ka kb i : Z) (x x' : Z * Z) :
  Forall rotation_ok ds -> pair_ok x -> pair_ok x' ->
  group ds ka kb i x = group ds ka kb i x' -> x = x'.
Proof.
  intros Hds Hx Hx' E. unfold group in E.
  apply inject_inj in E; try (apply rounds_ok; assumption).
  apply (rounds_inj ds x x' Hds Hx Hx' E).
Qed.

Lemma threefry2x32_groups (k1 k2 x1 x2 : Z) :
  Threefry.threefry2x32 k1 k2 x1 x2
  = let ks2 := U32.xor (U32.xor k1 k2) 0x1BD11BDA in
    group Threefry.rotations0 ks2 k1 5
      (group Threefry.rotations1 k2 ks2 4
         (group Threefry.rotations0 k1 k2 3
            (group Threefry.rotations1 ks2 k1 2
               (group Threefry.rotations0 k2 ks2 1
                  (U32.add x1 k1, U32.add x2 k2))))).
Proof. reflexivity. Qed.

Lemma threefry2x32_inj (k1 k2 x1 x2 y1 y2 : Z) :
  U32.in_range x1 -> U32.in_range x2 -> U32.in_range y1 -> U32.in_range y2 ->
  Threefry.threefry2x32 k1 k2 x1 x2 = Threefry.threefry2x32 k1 k2 y1 y2 ->
  x1 = y1 /\ x2 = y2.
Proof.
  intros Hx1 Hx2 Hy1 Hy2 E. rewrite !threefry2x32_groups in E. cbv zeta in E.
  do 5 (apply group_inj in E;
        [| first [exact rotations0_ok | exact rotations1_ok]
         | first [apply group_ok | split; apply add_range]
         | first [apply group_ok | split; apply add_range]]).
  injection E as E1 E2.
  split; [apply (add_inj_l k1) | apply (add_inj_l k2)]; assumption.
Qed.

End Injectivity.

Section SiblingKeys.

Import JaxRandom.

Lemma iota_2x32_entry_inj (i j : nat) :
  (Z.of_nat i < 2 ^ 64)%Z -> (Z.of_nat j < 2 ^ 64)%Z ->
  U32.wrap (Z.shiftr (Z.of_nat i) 32) = U32.wrap (Z.shiftr (Z.of_nat j) 32) ->
  U32.wrap (Z.of_nat i) = U32.wrap (Z.of_nat j) ->
  i = j.
Proof.
  unfold U32.wrap, U32.modulus. rewrite !Z.shiftr_div_pow2 by lia.
  change (2 ^ 32)%Z with 4294967296%Z. change (2 ^ 64)%Z with 18446744073709551616%Z.
  intros Hi Hj Ehi Elo. apply Nat2Z.inj.
  pose proof (Nat2Z.is_nonneg i). pose proof (Nat2Z.is_nonneg j).
  Z.to_euclidean_division_equations. lia.
Qed.

(** The children of one partitionable split are pairwise distinct. *)
Lemma split_foldlike_NoDup (k : key) (num : nat) :
  (Z.of_nat num <= 2 ^ 64)%Z -> NoDup (split_foldlike k num).
Proof.
  intros Hn. unfold split_foldlike, iota_2x32. rewrite map_map.
  apply NoDup_map_NoDup_ForallPairs; [|apply seq_NoDup].
  intros i j Hi Hj E. apply in_seq in Hi, Hj.
  apply threefry2x32_inj in E; try apply wrap_range.
  destruct E as [Ehi Elo].
  apply iota_2x32_entry_inj; try assumption; lia.
Qed.

Lemma noise_keys_NoDup (B : nat) (k : key) :
  (Z.of_nat B <= 2 ^ 64)%Z -> NoDup (noise_keys true B k).
Proof. intros HB. unfold noise_keys. apply split_foldlike_NoDup. exact HB. Qed.

Lemma time_key_neq_loss_key (k : key) : time_key true k <> loss_key true k.
Proof.
  pose proof (split_foldlike_NoDup k 2 ltac:(cbn; lia)) as H.
  unfold time_key, loss_key. cbn [split].
  unfold split_foldlike, iota_2x32 in *. cbn [seq map nth] in *.
  inversion H as [|? ? Hnin _]. intros E. apply Hnin. left. symmetry. exact E.
Qed.

End SiblingKeys.

(** * Stratified time sampling *)

Section TimeSampling.
Open Scope R_scope.

(** C10 (as amended): for a batch of B >= 1 examples, t1 > 0 and every key
    (under either threefry configuration), batch_loss_fn produces B times,
    the i-th of which, taken in exact real arithmetic, lies in the half-open
    bin [i*t1/B, (i+1)*t1/B), hence in [0, t1). *)
Theorem batch_times_in_bins (p : bool) (B : nat) (t1 : R) (k : key) :
  (1 <= B)%nat -> 0 < t1 ->
  exists ts,
    batch_times p B t1 k = Ok ts /\ length ts = B /\
    forall i, (i < B)%nat ->
      (INR i * t1 / INR B <= nth i ts 0 < INR (i + 1) * t1 / INR B) /\
      (0 <= nth i ts 0 < t1).
Proof.
  intros HB Ht1.
  assert (HB0 : B <> O) by lia.
  assert (HBR : 0 < INR B) by (apply lt_0_INR; lia).
  assert (Hw : 0 < t1 / INR B) by (apply Rdiv_lt_0_compat; assumption).
  eexists. split; [apply (batch_times_ok p B t1 k HB0)|].
  split; [rewrite length_map, length_seq; reflexivity|].
  intros i Hi. rewrite (nth_map_seq _ B i 0 Hi).
  pose proof (uniform_nth_range p (time_key p k) B 0 (t1 / INR B) i Hw Hi)
    as [Hu0 Hu1].
  set (u := nth i _ 0) in *. set (w := t1 / INR B) in *.
  assert (Hi0 : 0 <= INR i) by apply pos_INR.
  assert (HiB : INR i + 1 <= INR B).
  { rewrite <- S_INR. apply le_INR. lia. }
  assert (HwB : w * INR B = t1).
  { subst w. field. lra. }
  rewrite plus_INR. cbn [INR].
  replace (INR i * t1 / INR B) with (INR i * w) by (subst w; field; lra).
  replace ((INR i + 1) * t1 / INR B) with ((INR i + 1) * w) by (subst w; field; lra).
  repeat split; nra.
Qed.

Lemma batch_times_in_bins_witness :
  exists ts,
    batch_times true 4 10 (PRNGKey 1736) = Ok ts /\ length ts = 4%nat /\
    forall i, (i < 4)%nat ->
      (INR i * 10 / INR 4 <= nth i ts 0 < INR (i + 1) * 10 / INR 4) /\
      (0 <= nth i ts 0 < 10).
Proof.
  apply (batch_times_in_bins true 4 10 (PRNGKey 1736)); [lia | lra].
Defined.

(** C10 (counterexample): with the program's hyperparameters (a batch of
    256 examples, t1 = 10.0) and the keys of the seeds 164271 (partitionable
    split) and 335932 (original split), the last of the times computed in
    binary32 is 10.0 = t1 itself: the sum 0.03906226... + 9.9609375 rounds
    up to the upper edge of the last bin, so the time is not below t1. *)
Lemma last_time_rounds_to_t1 :
  (exists ts,
     batch_times32 true 256 (Float64.of_Z 10) (PRNGKey 164271) = Ok ts /\
     nth 255 ts S754_nan = Float32.of_Z 10 /\
     SFltb (nth 255 ts S754_nan) (Float32.of_Z 10) = false) /\
  (exists ts,
     batch_times32 false 256 (Float64.of_Z 10) (PRNGKey 335932) = Ok ts /\
     nth 255 ts S754_nan = Float32.of_Z 10 /\
     SFltb (nth 255 ts S754_nan) (Float32.of_Z 10) = false).
Proof.
  split; eexists; (split; [vm_compute; reflexivity|]);
    split; vm_compute; reflexivity.
Qed.

(** C1 (as amended): batch_loss_fn draws a vector of B uniform offsets, one
    per batch element and each in [0, t1/B), and sets the i-th time to the
    i-th offset plus i*t1/B; with B = 4, t1 = 10 and every offset equal to
    0.5 the times are exactly 0.5, 3.0, 5.5 and 8.0. *)
Theorem batch_times_offsets (p : bool) (B : nat) (t1 : R) (k : key) :
  B <> O ->
  (exists u,
     time_offsets p B t1 k = Ok u /\ length u = B /\
     (0 < t1 -> Forall (fun x => 0 <= x < t1 / INR B) u) /\
     batch_times p B t1 k
     = Ok (map (fun i => nth i u 0 + INR i * (t1 / INR B)) (seq 0 B))) /\
  stratify 4 10 [0.5; 0.5; 0.5; 0.5] = Ok [0.5; 3; 5.5; 8].
Proof.
  intros HB. split.
  - eexists. split; [apply (time_offsets_ok p B t1 k HB)|].
    split; [apply uniform_length|]. split.
    + intros Ht1. apply uniform_range. apply Rdiv_lt_0_compat; [exact Ht1|].
      apply lt_0_INR. lia.
    + apply batch_times_ok. exact HB.
  - rewrite stratify_ok by (try reflexivity; discriminate).
    cbn [seq map nth INR]. repeat f_equal; lra.
Qed.

Lemma batch_times_offsets_witness :
  (exists u,
     time_offsets false 4 10 (PRNGKey 1736) = Ok u /\ length u = 4%nat /\
     (0 < 10 -> Forall (fun x => 0 <= x < 10 / INR 4) u) /\
     batch_times false 4 10 (PRNGKey 1736)
     = Ok (map (fun i => nth i u 0 + INR i * (10 / INR 4)) (seq 0 4))) /\
  stratify 4 10 [0.5; 0.5; 0.5; 0.5] = Ok [0.5; 3; 5.5; 8].
Proof.
  apply (batch_times_offsets false 4 10 (PRNGKey 1736)). discriminate.
Defined.

End TimeSampling.

Section SingleOffset.
Open Scope R_scope.

(** Two draws whose random words differ in their top 23 bits cannot both
    be one offset. *)
Lemma distinct_draws_no_single_offset (p : bool) (k : key) (b0 b1 : Z)
  (rest : list Z) :
  JaxRandom.random_bits p (time_key p k) 4 = b0 :: b1 :: rest ->
  U32.in_range b0 -> U32.in_range b1 ->
  Z.shiftr b0 9 <> Z.shiftr b1 9 ->
  ~ exists u, batch_times p 4 10 k
              = Ok (map (fun i => u + INR i * (10 / INR 4)) (seq 0 4)).
Proof.
  intros Hbits Hr0 Hr1 Hne [u Hu].
  rewrite batch_times_ok in Hu by discriminate.
  unfold Sampling.uniform in Hu. rewrite Hbits in Hu.
  cbn [seq map nth] in Hu.
  injection Hu as H0 H1 _.
  pose proof (unit_float_range b0 Hr0) as [L0 U0].
  pose proof (unit_float_range b1 Hr1) as [L1 U1].
  assert (Hw : 0 < 10 / INR 4) by (cbn [INR]; lra).
  rewrite Rmax_right in H0 by nra.
  rewrite Rmax_right in H1 by nra.
  assert (E : Sampling.unit_float b0 = Sampling.unit_float b1) by nra.
  rewrite (unit_float_value b0 Hr0), (unit_float_value b1 Hr1) in E.
  apply Hne. apply eq_IZR.
  assert (Hp : 0 < IZR (2 ^ 23)) by (apply IZR_lt; reflexivity).
  unfold Rdiv in E. apply Rmult_eq_reg_r in E; [exact E|].
  apply Rinv_neq_0_compat. lra.
Qed.

(** C1 (counterexample): from the seed 1736 and a batch of four, under
    either threefry configuration, the four times are not of the form
    u + i*t1/B for one offset u. *)
Lemma single_offset_counterexample :
  (~ exists u, batch_times true 4 10 (PRNGKey 1736)
               = Ok (map (fun i => u + INR i * (10 / INR 4)) (seq 0 4))) /\
  (~ exists u, batch_times false 4 10 (PRNGKey 1736)
               = Ok (map (fun i => u + INR i * (10 / INR 4)) (seq 0 4))).
Proof.
  split.
  - apply (distinct_draws_no_single_offset true (PRNGKey 1736)
             1668669212 1516909266 [2178170965; 756260013]%Z).
    + vm_compute. reflexivity.
    + unfold U32.in_range, U32.modulus. lia.
    + unfold U32.in_range, U32.modulus. lia.
    + vm_compute. discriminate.
  - apply (distinct_draws_no_single_offset false (PRNGKey 1736)
             2740093334 356115806 [1044209782; 1583610096]%Z).
    + vm_compute. reflexivity.
    + unfold U32.in_range, U32.modulus. lia.
    + unfold U32.in_range, U32.modulus. lia.
    + vm_compute. discriminate.
Qed.

End SingleOffset.

(** * The noise schedule *)

Section Schedule.
Open Scope R_scope.

Lemma loss_variance_floor (ib : R -> R) (t : R) : 1e-5 <= loss_variance ib t.
Proof. unfold loss_variance. apply Rmax_r. Qed.

(** C7: int_beta(0) = 0, int_beta is non-decreasing, and the variance used
    in the loss, max(1 - exp(-int_beta(t)), 1e-5), is strictly positive for
    every t, so that its square root is a non-zero divisor. *)
Theorem schedule_variance_positive :
  int_beta 0 = 0 /\
  (forall s t, s <= t -> int_beta s <= int_beta t) /\
  (forall t, 0 < loss_variance int_beta t /\
             sqrt (loss_variance int_beta t) <> 0).
Proof.
  split; [reflexivity|]. split; [intros s t H; exact H|].
  intros t. pose proof (loss_variance_floor int_beta t) as Hf.
  assert (Hpos : 0 < loss_variance int_beta t) by lra.
  split; [exact Hpos|].
  apply Rgt_not_eq. apply sqrt_lt_R0. exact Hpos.
Qed.

Lemma schedule_variance_positive_witness :
  int_beta 0 = 0 /\ int_beta 1 <= int_beta 2 /\
  0 < loss_variance int_beta 0 /\ sqrt (loss_variance int_beta 0) <> 0.
Proof.
  destruct schedule_variance_positive as [H0 [Hmono Hvar]].
  split; [exact H0|]. split; [apply Hmono; lra|]. apply Hvar.
Defined.

(** C8 (counterexample): at the valid time t = 0 the weight is 0, not
    strictly positive. *)
Lemma weight_not_positive_at_zero : 0 <= 0 <= 10 /\ ~ 0 < weight 0.
Proof.
  split; [lra|]. unfold weight, int_beta. rewrite Ropp_0, exp_0. lra.
Qed.

(** Over the reals the exponential of [-t] lies between [1 - t] and 1. *)
Lemma exp_neg_bounds (t : R) : 0 <= t -> 1 - t <= exp (- t) <= 1.
Proof.
  intros Ht. split.
  - destruct Ht as [Ht | <-]; [|rewrite Ropp_0, exp_0; lra].
    pose proof (exp_ineq1 (- t) ltac:(lra)). lra.
  - destruct Ht as [Ht | <-]; [|rewrite Ropp_0, exp_0; lra].
    left. rewrite <- exp_0. apply exp_increasing. lra.
Qed.

(** The only binary32 value between 1 and 1 is 1. *)
Lemma one_between (e : spec_float) :
  SFleb (Float32.of_Z 1) e = true -> SFleb e (Float32.of_Z 1) = true ->
  e = Float32.of_Z 1.
Proof.
  change (Float32.of_Z 1) with (S754_finite false 8388608 (-23)).
  unfold SFleb, SFcompare.
  destruct e as [s| s | | s m ex]; try discriminate.
  - destruct s; discriminate.
  - destruct s; [discriminate|].
    rewrite (Z.compare_antisym (-23) ex).
    destruct (Z.compare_spec (-23) ex) as [E|L|G]; cbn [CompOpp];
      try discriminate.
    subst ex.
    change (PosDef.Pos.compare_cont Eq) with Pos.compare.
    rewrite (Pos.compare_antisym 8388608 m).
    destruct (Pos.compare_spec 8388608 m) as [E|L|G]; cbn [CompOpp];
      try discriminate.
    subst m. reflexivity.
Qed.

(** A positive time so small that [1 - t] rounds to 1 gives the weight 0. *)
Lemma weight32_vanishes_small (t : spec_float) :
  SFltb (Float32.of_Z 0) t = true ->
  Float32.sub (Float32.of_Z 1) t = Float32.of_Z 1 ->
  weight32_vanishes t.
Proof.
  intros Hpos Hsub. split; [exact Hpos|].
  intros exp32 Hlo Hhi. rewrite Hsub in Hlo.
  unfold weight32. rewrite (one_between _ Hlo Hhi). vm_compute. reflexivity.
Qed.

(** C8 (as amended): weight(t) = 1 - exp(-int_beta(t)) is 0 at t = 0 and
    non-negative for every t >= 0; read over the exact reals it is strictly
    positive for every t > 0.  The binary32 value that the program computes
    is not: with its hyperparameters (a batch of 256 examples, t1 = 10.0)
    and the keys of the seeds 826445 (partitionable split) and 1448192
    (original split) the first time of the batch is positive and so small
    that every exponential between the rounded bounds 1 - t and 1 gives the
    weight 0.0. *)
Theorem weight_sign (t : R) :
  0 <= t ->
  (weight 0 = 0 /\ 0 <= weight t /\ (0 < t -> 0 < weight t)) /\
  (exists ts,
     batch_times32 true 256 (Float64.of_Z 10) (PRNGKey 826445) = Ok ts /\
     weight32_vanishes (nth 0 ts S754_nan)) /\
  (exists ts,
     batch_times32 false 256 (Float64.of_Z 10) (PRNGKey 1448192) = Ok ts /\
     weight32_vanishes (nth 0 ts S754_nan)).
Proof.
  intros Ht. split; [|split].
  - unfold weight, int_beta.
    split; [rewrite Ropp_0, exp_0; lra|].
    assert (Hpos : 0 < t -> exp (- t) < 1).
    { intros H. rewrite <- exp_0. apply exp_increasing. lra. }
    split; [|intros H; specialize (Hpos H); lra].
    destruct Ht as [Ht | <-]; [specialize (Hpos Ht); lra|].
    rewrite Ropp_0, exp_0. lra.
  - eexists. split; [vm_compute; reflexivity|].
    apply weight32_vanishes_small; vm_compute; reflexivity.
  - eexists. split; [vm_compute; reflexivity|].
    apply weight32_vanishes_small; vm_compute; reflexivity.
Qed.

Lemma weight_sign_witness :
  (weight 0 = 0 /\ 0 <= weight 1 /\ (0 < 1 -> 0 < weight 1)) /\
  (exists ts,
     batch_times32 true 256 (Float64.of_Z 10) (PRNGKey 826445) = Ok ts /\
     SFltb (Float32.of_Z 0) (nth 0 ts S754_nan) = true /\
     weight32 (fun y => Float32.add (Float32.of_Z 1) y) (nth 0 ts S754_nan)
     = S754_zero false).
Proof.
  destruct (weight_sign 1 ltac:(lra)) as [Hreal [[ts [Hts [Hpos Hzero]]] _]].
  split; [exact Hreal|].
  exists ts. split; [exact Hts|]. split; [exact Hpos|].
  apply Hzero; vm_compute in Hts; injection Hts as <-; vm_compute; reflexivity.
Defined.

End Schedule.

(** * The loss of one example *)

Section SingleLoss.
Open Scope R_scope.

Lemma map2_pointwise {A B C : Type} (f : A -> B -> C) (x : list A)
  (y : list B) (da : A) (db : B) :
  length x = length y ->
  Tensor.map2 f x y
  = map (fun i => f (nth i x da) (nth i y db)) (seq 0 (length x)).
Proof.
  revert y. induction x as [|a x IH]; intros [|b y] Hlen;
    cbn in Hlen; try discriminate; [reflexivity|].
  cbn [Tensor.map2 length seq map nth]. f_equal.
  rewrite <- seq_shift, map_map. apply IH. lia.
Qed.

Lemma map_pointwise {A B : Type} (f : A -> B) (x : list A) (da : A) :
  map f x = map (fun i => f (nth i x da)) (seq 0 (length x)).
Proof.
  induction x as [|a x IH]; [reflexivity|].
  cbn [length seq map nth]. f_equal.
  rewrite <- seq_shift, map_map. exact IH.
Qed.

Lemma normal_length (erf_inv : R -> R) (p : bool) (k : key) (n : nat) :
  length (Sampling.normal erf_inv p k n) = n.
Proof. unfold Sampling.normal. rewrite length_map. apply uniform_length. Qed.

Lemma noised_sample_pointwise (ib : R -> R) (x : tensor) (t : R) (n : tensor) :
  length n = length x ->
  noised_sample ib x t n
  = map (fun i => nth i x 0 * exp (- 0.5 * ib t)
                  + sqrt (loss_variance ib t) * nth i n 0)
        (seq 0 (length x)).
Proof.
  intros Hn. unfold noised_sample, Tensor.add.
  rewrite (map2_pointwise Rplus _ _ 0 0)
    by (unfold Tensor.scale; rewrite !length_map; symmetry; exact Hn).
  rewrite scale_length. apply map_ext. intros i.
  rewrite !scale_nth. lra.
Qed.

Lemma div_scalar_nth (x : tensor) (c : R) (i : nat) :
  nth i (Tensor.div_scalar x c) 0 = nth i x 0 / c.
Proof.
  unfold Tensor.div_scalar.
  replace 0 with (0 / c) at 1 by (unfold Rdiv; apply Rmult_0_l).
  apply (map_nth (fun v => v / c)).
Qed.

(** C2: for a noise draw n of the data's shape, single_loss_fn forms
    mean = x*exp(-0.5*int_beta(t)), variance = max(1 - exp(-int_beta(t)), 1e-5),
    y = mean + sqrt(variance)*n and pred = model(t, y), and returns
    weight(t) times the mean over the elements of (pred + n/sqrt(variance))^2;
    the noise is the normal draw from the key.  The network returns a tensor
    of the shape of its input. *)
Theorem single_loss_fn_formula (p : bool) (erf_inv : R -> R)
  (model : R -> tensor -> tensor) (w ib : R -> R) (x : tensor) (t : R)
  (k : key) :
  (forall s y, length (model s y) = length y) ->
  single_loss_fn p erf_inv model w ib x t k
  = spec_single_loss model w ib x t
      (Sampling.normal erf_inv p k (length x)) /\
  forall n, length n = length x ->
    single_loss_of_noise model w ib x t n = spec_single_loss model w ib x t n.
Proof.
  intros Hshape.
  assert (Hgen : forall n, length n = length x ->
            single_loss_of_noise model w ib x t n
            = spec_single_loss model w ib x t n).
  { intros n Hn. unfold single_loss_of_noise, spec_single_loss.
    rewrite (noised_sample_pointwise ib x t n Hn).
    fold (loss_variance ib t).
    set (y := map _ (seq 0 (length x))).
    assert (Hy : length y = length x)
      by (subst y; rewrite length_map, length_seq; reflexivity).
    assert (Hpred : length (model t y) = length x)
      by (rewrite Hshape; exact Hy).
    unfold Tensor.mean, Tensor.square, Tensor.add.
    rewrite (map2_pointwise Rplus _ _ 0 0)
      by (unfold Tensor.div_scalar; rewrite length_map; congruence).
    rewrite !length_map, length_seq, Hpred, map_map.
    do 3 f_equal. apply map_ext. intros i.
    rewrite div_scalar_nth. reflexivity. }
  split; [|exact Hgen].
  unfold single_loss_fn. apply Hgen. apply normal_length.
Qed.

Lemma single_loss_fn_formula_witness :
  single_loss_fn true (fun u => u) (fun _ y => y) weight int_beta [1; 2] 1
    (PRNGKey 1736)
  = spec_single_loss (fun _ y => y) weight int_beta [1; 2] 1
      (Sampling.normal (fun u => u) true (PRNGKey 1736) 2) /\
  forall n, length n = 2%nat ->
    single_loss_of_noise (fun _ y => y) weight int_beta [1; 2] 1 n
    = spec_single_loss (fun _ y => y) weight int_beta [1; 2] 1 n.
Proof.
  apply (single_loss_fn_formula true (fun u => u) (fun _ y => y)
           weight int_beta [1; 2] 1 (PRNGKey 1736)).
  intros s y. reflexivity.
Defined.

End SingleLoss.

(** * The loss of a batch *)

Section BatchLoss.
Open Scope R_scope.

Lemma vmap3_ok {A B C D : Type} (f : A -> B -> C -> D)
  (xs : list A) (ys : list B) (zs : list C) (da : A) (db : B) (dc : C) :
  length ys = length xs -> length zs = length xs ->
  vmap3 f xs ys zs
  = Ok (map (fun i => f (nth i xs da) (nth i ys db) (nth i zs dc))
            (seq 0 (length xs))).
Proof.
  revert ys zs. induction xs as [|x xs IH]; intros [|y ys] [|z zs] Hy Hz;
    cbn in Hy, Hz; try discriminate; [reflexivity|].
  cbn [vmap3]. rewrite (IH ys zs) by lia. cbn [bind length seq map nth].
  do 2 f_equal. rewrite <- seq_shift, map_map. reflexivity.
Qed.

Lemma noise_keys_length (p : bool) (B : nat) (k : key) :
  length (noise_keys p B k) = B.
Proof. unfold noise_keys. apply split_length. Qed.

Lemma batch_loss_fn_value (p : bool) (erf_inv : R -> R)
  (model : R -> tensor -> tensor) (w ib : R -> R) (data : list tensor)
  (t1 : R) (k : key) :
  data <> [] ->
  exists ts,
    batch_times p (length data) t1 k = Ok ts /\
    length ts = length data /\
    length (noise_keys p (length data) k) = length data /\
    batch_loss_fn p erf_inv model w ib data t1 k
    = Ok (Tensor.sum
            (map (fun i => single_loss_fn p erf_inv model w ib
                             (nth i data []) (nth i ts 0)
                             (nth i (noise_keys p (length data) k) k))
                 (seq 0 (length data)))
          / INR (length data)).
Proof.
  intros Hne.
  assert (HB : length data <> O) by (destruct data; [contradiction|discriminate]).
  pose proof (batch_times_ok p (length data) t1 k HB) as Ht.
  eexists. split; [exact Ht|].
  split; [rewrite length_map, length_seq; reflexivity|].
  split; [apply noise_keys_length|].
  unfold batch_loss_fn. rewrite Ht. cbn [bind].
  rewrite (vmap3_ok _ data _ _ [] 0 k)
    by (rewrite ?length_map, ?length_seq, ?noise_keys_length; reflexivity).
  cbn [bind]. unfold Tensor.mean. rewrite length_map, length_seq. reflexivity.
Qed.

(** X17: for a batch of B >= 1 examples, batch_loss_fn returns the
    arithmetic mean of the B values single_loss_fn(data_i, t_i, key_i),
    where t_i is the i-th stratified time, drawn from tkey = split(key)[0],
    and key_i is the i-th of the exactly B children of split(losskey, B)
    with losskey = split(key)[1]; under the partitionable split these B
    keys are pairwise distinct and losskey differs from tkey. *)
Theorem batch_loss_fn_mean (p : bool) (erf_inv : R -> R)
  (model : R -> tensor -> tensor) (w ib : R -> R) (data : list tensor)
  (t1 : R) (k : key) :
  data <> [] ->
  let B := length data in
  let tkey := nth 0 (JaxRandom.split p k 2) k in
  let losskey := nth 1 (JaxRandom.split p k 2) k in
  let keys := JaxRandom.split p losskey B in
  let ts :=
    map (fun i => nth i (Sampling.uniform p tkey B 0 (t1 / INR B)) 0
                  + INR i * (t1 / INR B)) (seq 0 B) in
  length keys = B /\
  batch_loss_fn p erf_inv model w ib data t1 k
  = Ok (Tensor.sum
          (map (fun i => single_loss_fn p erf_inv model w ib
                           (nth i data []) (nth i ts 0) (nth i keys k))
               (seq 0 B))
        / INR B) /\
  (p = true -> (Z.of_nat B <= 2 ^ 64)%Z -> NoDup keys /\ tkey <> losskey).
Proof.
  intros Hne B tkey losskey keys ts.
  assert (HB : B <> O)
    by (subst B; destruct data; [contradiction|discriminate]).
  split; [apply split_length|]. split.
  - destruct (batch_loss_fn_value p erf_inv model w ib data t1 k Hne)
      as [ts' [Hts [_ [_ Hloss]]]].
    rewrite (batch_times_ok p (length data) t1 k HB) in Hts.
    injection Hts as <-. exact Hloss.
  - intros Hp HB64. subst p. split.
    + apply split_foldlike_NoDup. exact HB64.
    + apply (time_key_neq_loss_key k).
Qed.

Lemma batch_loss_fn_mean_witness :
  exists l,
    batch_loss_fn true (fun u => u) (fun _ y => y) weight int_beta
      [[1; 2]; [3; 4]] 10 (PRNGKey 1736) = Ok l /\
    NoDup (JaxRandom.split true
             (nth 1 (JaxRandom.split true (PRNGKey 1736) 2) (PRNGKey 1736)) 2).
Proof.
  destruct (batch_loss_fn_mean true (fun u => u) (fun _ y => y) weight int_beta
              [[1; 2]; [3; 4]] 10 (PRNGKey 1736)) as [_ [Hloss Hkeys]];
    [discriminate|].
  eexists. split; [exact Hloss|].
  apply Hkeys; [reflexivity | cbn; lia].
Defined.

End BatchLoss.

(** * Keys across a training step *)

Section StepKeys.
Open Scope R_scope.

Lemma next_key_is_time_key (k : key) : next_key true k = time_key true k.
Proof. reflexivity. Qed.

(** C6 (the code at the failing input): with the partitionable threefry
    split, a step on a non-empty batch succeeds and the key it returns for
    the next step is the very key [tkey] from which the same step drew its
    times. *)
Theorem make_step_returns_time_key (erf_inv : R -> R)
  (Model Grads Updates OptState : Type)
  (forward : Model -> R -> tensor -> tensor)
  (filter_grad : (Model -> result R) -> Model -> Grads)
  (optim_update : Grads -> OptState -> Updates * OptState)
  (apply_updates : Model -> Updates -> Model)
  (model : Model) (w ib : R -> R) (data : list tensor) (t1 : R) (k : key)
  (opt_state : OptState) :
  data <> [] ->
  exists loss model' opt_state',
    make_step true erf_inv Model Grads Updates OptState forward filter_grad
      optim_update apply_updates model w ib data t1 k opt_state
    = Ok (loss, model', time_key true k, opt_state').
Proof.
  intros Hne.
  destruct (batch_loss_fn_value true erf_inv (forward model) w ib data t1 k Hne)
    as [ts [_ [_ [_ Hloss]]]].
  unfold make_step. rewrite Hloss. cbn [bind].
  destruct (optim_update _ opt_state) as [updates opt_state'].
  rewrite next_key_is_time_key. eexists _, _, _. reflexivity.
Qed.

Lemma make_step_returns_time_key_witness :
  exists loss model' opt_state',
    make_step true (fun u => u) unit unit unit unit
      (fun _ _ y => y) (fun _ _ => tt) (fun _ s => (tt, s)) (fun m _ => m)
      tt weight int_beta [[1; 2]; [3; 4]] 10 (PRNGKey 1736) tt
    = Ok (loss, model', time_key true (PRNGKey 1736), opt_state').
Proof.
  apply (make_step_returns_time_key (fun u => u) unit unit unit unit
           (fun _ _ y => y) (fun _ _ => tt) (fun _ s => (tt, s)) (fun m _ => m)
           tt weight int_beta [[1; 2]; [3; 4]] 10 (PRNGKey 1736) tt).
  discriminate.
Defined.

(** The keys of one step from the seed 1736, under each configuration. *)
Example step_keys_partitionable :
  next_key true (PRNGKey 1736) = (173981204, 2724883759)%Z /\
  time_key true (PRNGKey 1736) = (173981204, 2724883759)%Z /\
  loss_key true (PRNGKey 1736) = (3135852898, 173577572)%Z.
Proof. vm_compute. repeat split. Qed.

Example step_keys_original :
  next_key false (PRNGKey 1736) = (3135852898, 173577572)%Z /\
  time_key false (PRNGKey 1736) = (4181129751, 2744716499)%Z /\
  loss_key false (PRNGKey 1736) = (293654235, 639186732)%Z.
Proof. vm_compute. repeat split. Qed.

End StepKeys.

(** * The score network *)

Section NetworkFacts.

Import Layers.

Lemma shape_eqb_refl (s : shape) : shape_eqb s s = true.
Proof. unfold shape_eqb. destruct (list_eq_dec Nat.eq_dec s s); congruence. Qed.

Lemma broadcast_rev_same (s : shape) : broadcast_rev s s = Ok s.
Proof.
  induction s as [|x s IH]; [reflexivity|].
  cbn [broadcast_rev]. rewrite IH. cbn [bind]. rewrite Nat.eqb_refl. reflexivity.
Qed.

Lemma add_same (s : shape) : add s s = Ok s.
Proof.
  unfold add. rewrite broadcast_rev_same. cbn [bind]. rewrite rev_involutive.
  reflexivity.
Qed.

Lemma LayerNorm_call_same (s : shape) :
  LayerNorm_call {| norm_shape := s |} s = Ok s.
Proof. unfold LayerNorm_call. cbn [norm_shape]. rewrite shape_eqb_refl. reflexivity. Qed.

(** ** The constructors of the layers *)

Lemma Linear_init_cases (i o : nat) :
  (i = 0 /\ Linear_init i o = Raise ZeroDivisionError) \/
  (i <> 0 /\ Linear_init i o = Ok tt).
Proof.
  unfold Linear_init. destruct (Nat.eqb_spec i 0) as [E|E];
    [left | right]; split; auto.
Qed.

(** An MLP of depth 1 is built exactly when neither its input size nor its
    width is zero. *)
Lemma MLP_init_cases (i o wd : nat) (k : key) :
  ((i = 0 \/ wd = 0) /\ MLP_init i o wd 1 k = Raise ZeroDivisionError) \/
  (i <> 0 /\ wd <> 0 /\
   MLP_init i o wd 1 k
   = Ok {| mlp_in_size := i; mlp_out_size := o; mlp_width_size := wd;
           mlp_depth := 1; mlp_key := k |}).
Proof.
  unfold MLP_init. cbn [Nat.eqb].
  destruct (Linear_init_cases i wd) as [[Hi E]|[Hi E]]; rewrite E; cbn [bind].
  - left. split; [left; exact Hi | reflexivity].
  - destruct (Linear_init_cases wd o) as [[Hw E']|[Hw E']]; rewrite E';
      cbn [bind].
    + left. split; [right; exact Hw | reflexivity].
    + right. repeat split; assumption.
Qed.

Lemma MixerBlock_init_cases (p : bool) (np hs mps mhs : nat) (k : key) :
  ((np = 0 \/ hs = 0 \/ mps = 0 \/ mhs = 0) /\
   MixerBlock_init p np hs mps mhs k = Raise ZeroDivisionError) \/
  (np <> 0 /\ hs <> 0 /\ mps <> 0 /\ mhs <> 0 /\
   MixerBlock_init p np hs mps mhs k
   = Ok {| patch_mixer :=
             {| mlp_in_size := np; mlp_out_size := np; mlp_width_size := mps;
                mlp_depth := 1;
                mlp_key := nth 0 (JaxRandom.split p k 2) k |};
           hidden_mixer :=
             {| mlp_in_size := hs; mlp_out_size := hs; mlp_width_size := mhs;
                mlp_depth := 1;
                mlp_key := nth 1 (JaxRandom.split p k 2) k |};
           norm1 := {| norm_shape := [hs; np] |};
           norm2 := {| norm_shape := [np; hs] |} |}).
Proof.
  unfold MixerBlock_init.
  destruct (MLP_init_cases np np mps (nth 0 (JaxRandom.split p k 2) k))
    as [[H E]|[Hn [Hm E]]]; rewrite E; cbn [bind].
  - left. split; [tauto | reflexivity].
  - destruct (MLP_init_cases hs hs mhs (nth 1 (JaxRandom.split p k 2) k))
      as [[H E']|[Hh [Hm' E']]]; rewrite E'; cbn [bind].
    + left. split; [tauto | reflexivity].
    + right. repeat split; assumption.
Qed.

Lemma MixerBlock_init_ok (p : bool) (np hs mps mhs : nat) (k : key) :
  np <> 0 -> hs <> 0 -> mps <> 0 -> mhs <> 0 ->
  exists b, MixerBlock_init p np hs mps mhs k = Ok b.
Proof.
  intros Hn Hh Hp Hm.
  destruct (MixerBlock_init_cases p np hs mps mhs k)
    as [[H _]|[_ [_ [_ [_ E]]]]]; [tauto | eexists; exact E].
Qed.

Lemma MixerBlock_init_zero (p : bool) (np hs mps mhs : nat) (k : key) :
  np = 0 \/ hs = 0 \/ mps = 0 \/ mhs = 0 ->
  MixerBlock_init p np hs mps mhs k = Raise ZeroDivisionError.
Proof.
  intros H.
  destruct (MixerBlock_init_cases p np hs mps mhs k)
    as [[_ E]|[Hn [Hh [Hp [Hm _]]]]]; [exact E | tauto].
Qed.

(** ** Comprehensions *)

Lemma for_each_cons_inv {A B : Type} (f : A -> result B) (x : A)
  (xs : list A) (ys : list B) :
  for_each f (x :: xs) = Ok ys ->
  exists y ys', f x = Ok y /\ for_each f xs = Ok ys' /\ ys = y :: ys'.
Proof.
  cbn [for_each]. destruct (f x) as [y|e]; cbn [bind]; [|discriminate].
  destruct (for_each f xs) as [ys'|e]; cbn [bind]; [|discriminate].
  intros E. injection E as <-. exists y, ys'. repeat split.
Qed.

Lemma for_each_length {A B : Type} (f : A -> result B) (xs : list A)
  (ys : list B) :
  for_each f xs = Ok ys -> length ys = length xs.
Proof.
  revert ys. induction xs as [|x xs IH]; intros ys E.
  - injection E as <-. reflexivity.
  - apply for_each_cons_inv in E. destruct E as [y [ys' [_ [E ->]]]].
    cbn [length]. f_equal. apply IH. exact E.
Qed.

Lemma for_each_Forall2 {A B : Type} (f : A -> result B) (xs : list A)
  (ys : list B) :
  for_each f xs = Ok ys -> Forall2 (fun x y => f x = Ok y) xs ys.
Proof.
  revert ys. induction xs as [|x xs IH]; intros ys E.
  - injection E as <-. constructor.
  - apply for_each_cons_inv in E. destruct E as [y [ys' [Ey [E ->]]]].
    constructor; [exact Ey | apply IH; exact E].
Qed.

Lemma for_each_total {A B : Type} (f : A -> result B) (xs : list A) :
  (forall x, exists y, f x = Ok y) -> exists ys, for_each f xs = Ok ys.
Proof.
  intros Hf. induction xs as [|x xs [ys IH]]; [eexists; reflexivity|].
  destruct (Hf x) as [y Ey]. exists (y :: ys).
  cbn [for_each]. rewrite Ey, IH. reflexivity.
Qed.

Lemma for_each_raise {A B : Type} (f : A -> result B) (e : error) (x : A)
  (xs : list A) :
  (forall x, f x = Raise e) -> for_each f (x :: xs) = Raise e.
Proof. intros Hf. cbn [for_each]. rewrite Hf. reflexivity. Qed.

(** ** A block on the shape it is built for *)

Lemma MixerBlock_call_init (p : bool) (num_patches hidden_size mps mhs : nat)
  (k : key) (b : MixerBlock) :
  MixerBlock_init p num_patches hidden_size mps mhs k = Ok b ->
  MixerBlock_call b [hidden_size; num_patches]
  = Ok [hidden_size; num_patches].
Proof.
  intros Hb.
  destruct (MixerBlock_init_cases p num_patches hidden_size mps mhs k)
    as [[_ E]|[_ [_ [_ [_ E]]]]]; rewrite E in Hb; [discriminate|].
  injection Hb as <-.
  unfold MixerBlock_call.
  cbn [norm1 norm2 patch_mixer hidden_mixer].
  rewrite LayerNorm_call_same. cbn [bind vmap MLP_call mlp_in_size mlp_out_size].
  rewrite Nat.eqb_refl. cbn [bind]. rewrite add_same. cbn [bind transpose].
  rewrite LayerNorm_call_same. cbn [bind vmap MLP_call mlp_in_size mlp_out_size].
  rewrite Nat.eqb_refl. cbn [bind]. rewrite add_same. reflexivity.
Qed.

Lemma apply_blocks_init (p : bool) (num_patches hidden_size mps mhs : nat)
  (keys : list key) (bs : list MixerBlock) :
  for_each (MixerBlock_init p num_patches hidden_size mps mhs) keys = Ok bs ->
  apply_blocks bs [hidden_size; num_patches]
  = Ok [hidden_size; num_patches].
Proof.
  intros E. apply for_each_Forall2 in E.
  induction E as [|k b keys bs Hb _ IH]; [reflexivity|].
  cbn [apply_blocks].
  rewrite (MixerBlock_call_init p num_patches hidden_size mps mhs k b Hb).
  exact IH.
Qed.

Lemma conv_extent_patch (n ps : nat) :
  0 < n -> ps <> 0 -> n mod ps = 0 -> conv_extent n ps ps = Ok (n / ps).
Proof.
  intros Hn Hps Hmod.
  pose proof (Nat.div_mod_eq n ps) as Hd. rewrite Hmod, Nat.add_0_r in Hd.
  assert (Hq : 1 <= n / ps).
  { destruct (n / ps) eqn:E; [|lia]. rewrite Nat.mul_0_r in Hd. lia. }
  unfold conv_extent.
  assert (Hlt : (n <? ps) = false) by (apply Nat.ltb_ge; nia).
  assert (Hz : (ps =? 0) = false) by (apply Nat.eqb_neq; exact Hps).
  rewrite Hlt, Hz. cbn [orb]. f_equal.
  replace (n - ps) with ((n / ps - 1) * ps) by nia.
  rewrite Nat.div_mul by exact Hps. lia.
Qed.

Lemma convt_extent_patch (n ps : nat) :
  0 < n -> ps <> 0 -> n mod ps = 0 -> convt_extent (n / ps) ps ps = Ok n.
Proof.
  intros Hn Hps Hmod.
  pose proof (Nat.div_mod_eq n ps) as Hd. rewrite Hmod, Nat.add_0_r in Hd.
  assert (Hq : 1 <= n / ps).
  { destruct (n / ps) eqn:E; [|lia]. rewrite Nat.mul_0_r in Hd. lia. }
  unfold convt_extent.
  assert (Hz : (n / ps =? 0) = false) by (apply Nat.eqb_neq; lia).
  rewrite Hz. f_equal. nia.
Qed.

Lemma patches_positive (h w ps : nat) :
  0 < h -> 0 < w -> ps <> 0 -> h mod ps = 0 -> w mod ps = 0 ->
  (h / ps) * (w / ps) <> 0.
Proof.
  intros Hh Hw Hps Hmh Hmw.
  pose proof (Nat.div_mod_eq h ps) as Dh. rewrite Hmh, Nat.add_0_r in Dh.
  pose proof (Nat.div_mod_eq w ps) as Dw. rewrite Hmw, Nat.add_0_r in Dw.
  destruct (h / ps) eqn:Eh; [rewrite Nat.mul_0_r in Dh; lia|].
  destruct (w / ps) eqn:Ew; [rewrite Nat.mul_0_r in Dw; lia|].
  cbn. discriminate.
Qed.

(** What the two assertions of the constructor decide: past them, the
    construction is that of the blocks. *)
Lemma Mixer2d_init_cases (p : bool) (c h w ps hs mps mhs nb : nat) (t1 : R)
  (k : key) :
  (ps = 0 /\
   Mixer2d_init p (c, h, w) ps hs mps mhs nb t1 k = Raise ZeroDivisionError) \/
  (ps <> 0 /\ (h mod ps <> 0 \/ w mod ps <> 0) /\
   Mixer2d_init p (c, h, w) ps hs mps mhs nb t1 k = Raise AssertionError) \/
  (ps <> 0 /\ h mod ps = 0 /\ w mod ps = 0 /\
   Mixer2d_init p (c, h, w) ps hs mps mhs nb t1 k
   = let* bs :=
       for_each (MixerBlock_init p ((h / ps) * (w / ps)) hs mps mhs)
         (skipn 2 (JaxRandom.split p k (2 + nb))) in
     Ok {| conv_in :=
             {| conv_in_channels := c + 1; conv_out_channels := hs;
                conv_kernel_size := ps; conv_stride := ps;
                conv_key := nth 0 (JaxRandom.split p k (2 + nb)) k |};
           conv_out :=
             {| convt_in_channels := hs; convt_out_channels := c;
                convt_kernel_size := ps; convt_stride := ps;
                convt_key := nth 1 (JaxRandom.split p k (2 + nb)) k |};
           blocks := bs;
           norm := {| norm_shape := [hs; (h / ps) * (w / ps)] |};
           t1 := t1 |}).
Proof.
  unfold Mixer2d_init, py_mod.
  destruct (Nat.eqb_spec ps 0) as [Hps|Hps]; [left; split; [exact Hps|reflexivity]|].
  right. cbn [bind].
  destruct (Nat.eqb_spec (h mod ps) 0) as [Hh|Hh]; cbn [py_assert bind].
  - destruct (Nat.eqb_spec (w mod ps) 0) as [Hw|Hw]; cbn [py_assert bind].
    + right. repeat (split; [assumption|]). reflexivity.
    + left. split; [exact Hps|]. split; [right; exact Hw|reflexivity].
  - left. split; [exact Hps|]. split; [left; exact Hh|reflexivity].
Qed.

(** The network that a successful construction returns. *)
Lemma Mixer2d_init_inv (p : bool) (c h w ps hs mps mhs nb : nat) (t1 : R)
  (k : key) (m : Mixer2d) :
  Mixer2d_init p (c, h, w) ps hs mps mhs nb t1 k = Ok m ->
  ps <> 0 /\ h mod ps = 0 /\ w mod ps = 0 /\
  conv_in m = {| conv_in_channels := c + 1; conv_out_channels := hs;
                 conv_kernel_size := ps; conv_stride := ps;
                 conv_key := nth 0 (JaxRandom.split p k (2 + nb)) k |} /\
  conv_out m = {| convt_in_channels := hs; convt_out_channels := c;
                  convt_kernel_size := ps; convt_stride := ps;
                  convt_key := nth 1 (JaxRandom.split p k (2 + nb)) k |} /\
  for_each (MixerBlock_init p ((h / ps) * (w / ps)) hs mps mhs)
    (skipn 2 (JaxRandom.split p k (2 + nb))) = Ok (blocks m) /\
  norm m = {| norm_shape := [hs; (h / ps) * (w / ps)] |}.
Proof.
  intros Hinit.
  destruct (Mixer2d_init_cases p c h w ps hs mps mhs nb t1 k)
    as [[_ E] | [[_ [_ E]] | [Hnz [Hh [Hw E]]]]]; rewrite E in Hinit;
    try discriminate.
  destruct (for_each _ _) as [bs|e]; cbn [bind] in Hinit; [|discriminate].
  injection Hinit as <-. cbn [conv_in conv_out blocks norm].
  repeat split; assumption.
Qed.

(** With positive sizes the blocks are all built. *)
Lemma Mixer2d_blocks_ok (p : bool) (np hs mps mhs : nat) (keys : list key) :
  np <> 0 -> hs <> 0 -> mps <> 0 -> mhs <> 0 ->
  exists bs, for_each (MixerBlock_init p np hs mps mhs) keys = Ok bs.
Proof.
  intros Hn Hh Hp Hm. apply for_each_total. intros k.
  apply MixerBlock_init_ok; assumption.
Qed.

End NetworkFacts.

Section NetworkClaims.

Import Layers.

(** C9: constructing a Mixer2d whose image height or width is not exactly
    divisible by patch_size raises at once, before any layer is built and
    whatever the other sizes (an assertion error, or a division error for a
    zero patch size), and yields no network; for an image with positive
    height and width and positive layer sizes (hidden_size, mix_patch_size,
    mix_hidden_size), the construction succeeds exactly when both are
    divisible. *)
Theorem Mixer2d_init_divisible (p : bool) (c h w ps hs mps mhs nb : nat)
  (t1 : R) (k : key) :
  (ps <> 0 -> h mod ps <> 0 \/ w mod ps <> 0 ->
   Mixer2d_init p (c, h, w) ps hs mps mhs nb t1 k = Raise AssertionError) /\
  (ps = 0 ->
   Mixer2d_init p (c, h, w) ps hs mps mhs nb t1 k = Raise ZeroDivisionError) /\
  (0 < h -> 0 < w -> 0 < hs -> 0 < mps -> 0 < mhs ->
   ((exists m, Mixer2d_init p (c, h, w) ps hs mps mhs nb t1 k = Ok m)
    <-> ps <> 0 /\ h mod ps = 0 /\ w mod ps = 0)).
Proof.
  destruct (Mixer2d_init_cases p c h w ps hs mps mhs nb t1 k)
    as [[Hz E] | [[Hnz [Hnd E]] | [Hnz [Hh [Hw E]]]]].
  - split; [|split].
    + intros Hne. contradiction.
    + intros _. exact E.
    + intros _ _ _ _ _.
      split; [intros [m Hm]; congruence | intros [Hne _]; contradiction].
  - split; [|split].
    + intros _ _. exact E.
    + intros Hz. contradiction.
    + intros _ _ _ _ _.
      split; [intros [m Hm]; congruence | intros [_ [Hh Hw]]; tauto].
  - split; [|split].
    + intros _ [Hh' | Hw']; contradiction.
    + intros Hz. contradiction.
    + intros Hh0 Hw0 Hhs Hmps Hmhs.
      split; [intros _; tauto | intros _].
      destruct (Mixer2d_blocks_ok p ((h / ps) * (w / ps)) hs mps mhs
                  (skipn 2 (JaxRandom.split p k (2 + nb))))
        as [bs Hbs]; try lia.
      { apply patches_positive; assumption. }
      rewrite E, Hbs. cbn [bind]. eexists. reflexivity.
Qed.

Lemma Mixer2d_init_divisible_witness :
  (exists m, Mixer2d_init true (1, 28, 28) 4 64 512 512 4 10 (PRNGKey 1736)
             = Ok m) /\
  Mixer2d_init true (1, 28, 30) 4 64 512 512 4 10 (PRNGKey 1736)
  = Raise AssertionError /\
  Mixer2d_init true (1, 28, 28) 0 64 512 512 4 10 (PRNGKey 1736)
  = Raise ZeroDivisionError.
Proof.
  split; [|split].
  - apply (proj2 (proj2 (Mixer2d_init_divisible true 1 28 28 4 64 512 512 4 10
                           (PRNGKey 1736)))); try lia.
    repeat split; discriminate.
  - apply (proj1 (Mixer2d_init_divisible true 1 28 30 4 64 512 512 4 10
                    (PRNGKey 1736))).
    + discriminate.
    + right. discriminate.
  - apply (proj1 (proj2 (Mixer2d_init_divisible true 1 28 28 0 64 512 512 4 10
                           (PRNGKey 1736)))).
    reflexivity.
Defined.

(** C5: for a network constructed for the image size (c, h, w) and an
    image of that shape (positive height and width) with a scalar time, the
    forward pass returns the shape (c, h, w) of the image: the input
    convolution takes c + 1 channels, the output convolution gives back c. *)
Theorem Mixer2d_call_shape (p : bool) (c h w ps hs mps mhs nb : nat)
  (t1 : R) (k : key) (m : Mixer2d) :
  0 < h -> 0 < w ->
  Mixer2d_init p (c, h, w) ps hs mps mhs nb t1 k = Ok m ->
  Mixer2d_call m [] [c; h; w] = Ok [c; h; w] /\
  conv_in_channels (conv_in m) = c + 1 /\
  convt_out_channels (conv_out m) = c.
Proof.
  intros Hh0 Hw0 Hinit.
  destruct (Mixer2d_init_inv p c h w ps hs mps mhs nb t1 k m Hinit)
    as [Hnz [Hh [Hw [Hin [Hout [Hbl Hnorm]]]]]].
  split; [|rewrite Hin, Hout; split; reflexivity].
  unfold Mixer2d_call. cbn [repeat_plane bind concatenate].
  rewrite shape_eqb_refl. cbn [bind]. rewrite Hin.
  unfold Conv2d_call. cbn [conv_in_channels conv_kernel_size conv_stride
                            conv_out_channels].
  rewrite Nat.eqb_refl.
  rewrite (conv_extent_patch h ps Hh0 Hnz Hh), (conv_extent_patch w ps Hw0 Hnz Hw).
  cbn [bind flatten_patches].
  rewrite (apply_blocks_init p _ hs mps mhs _ _ Hbl). cbn [bind].
  rewrite Hnorm, LayerNorm_call_same. cbn [bind unflatten_patches].
  rewrite Nat.eqb_refl, Hout.
  unfold ConvTranspose2d_call.
  cbn [bind convt_in_channels convt_kernel_size convt_stride
       convt_out_channels].
  rewrite Nat.eqb_refl.
  rewrite (convt_extent_patch h ps Hh0 Hnz Hh), (convt_extent_patch w ps Hw0 Hnz Hw).
  reflexivity.
Qed.

End NetworkClaims.

Section NetworkWitness.

Import Layers.

Lemma Mixer2d_call_shape_witness :
  exists m,
    Mixer2d_init true (1, 28, 28) 4 64 512 512 4 10 (PRNGKey 1736) = Ok m /\
    Mixer2d_call m [] [1; 28; 28] = Ok [1; 28; 28] /\
    conv_in_channels (conv_in m) = 1 + 1 /\
    convt_out_channels (conv_out m) = 1.
Proof.
  eexists. split; [reflexivity|].
  apply (Mixer2d_call_shape true 1 28 28 4 64 512 512 4 10 (PRNGKey 1736));
    [lia | lia | reflexivity].
Defined.

End NetworkWitness.

(** * Further properties of the objective *)

Section LossFacts.
Open Scope R_scope.

Lemma sum_nonneg (l : tensor) : Forall (fun v => 0 <= v) l -> 0 <= Tensor.sum l.
Proof.
  induction 1 as [|v l Hv _ IH]; cbn [Tensor.sum fold_right]; [lra|].
  fold (Tensor.sum l). lra.
Qed.

Lemma square_nonneg (l : tensor) : Forall (fun v => 0 <= v) (Tensor.square l).
Proof.
  unfold Tensor.square. apply Forall_forall. intros v Hv.
  apply in_map_iff in Hv. destruct Hv as [a [<- _]]. apply pow2_ge_0.
Qed.

Lemma mean_nonneg (l : tensor) :
  l <> [] -> Forall (fun v => 0 <= v) l -> 0 <= Tensor.mean l.
Proof.
  intros Hne Hl. unfold Tensor.mean. apply Rmult_le_pos; [apply sum_nonneg; exact Hl|].
  left. apply Rinv_0_lt_compat. apply lt_0_INR.
  destruct l; [contradiction | cbn; lia].
Qed.

Lemma sum_squares_zero (l : tensor) :
  Tensor.sum (Tensor.square l) = 0 <-> Forall (fun v => v = 0) l.
Proof.
  induction l as [|v l IH]; [split; [constructor | reflexivity]|].
  cbn [Tensor.square map Tensor.sum fold_right].
  fold (Tensor.square l). fold (Tensor.sum (Tensor.square l)).
  pose proof (sum_nonneg _ (square_nonneg l)) as Hs.
  pose proof (pow2_ge_0 v) as Hv.
  split.
  - intros E. assert (Hv0 : v ^ 2 = 0) by lra.
    assert (Hs0 : Tensor.sum (Tensor.square l) = 0) by lra.
    constructor; [|apply IH; exact Hs0].
    apply Rmult_integral in Hv0. destruct Hv0 as [H|H]; [exact H|].
    apply Rmult_integral in H. destruct H as [H|H]; [exact H|lra].
  - intros H. inversion H as [|? ? Hv0 Hl0]; subst.
    apply IH in Hl0. rewrite Hl0. lra.
Qed.

Lemma add_zero_iff (a b : tensor) :
  length a = length b ->
  Forall (fun v => v = 0) (Tensor.add a b) <-> a = map Ropp b.
Proof.
  revert b. induction a as [|x a IH]; intros [|y b] Hlen; cbn in Hlen;
    try discriminate.
  - split; [reflexivity | constructor].
  - cbn [Tensor.add Tensor.map2 map]. fold (Tensor.add a b). split.
    + intros H. inversion H as [|? ? Hxy Hab]; subst.
      f_equal; [lra | apply IH; [lia | exact Hab]].
    + intros E. injection E as Ex Ea. constructor; [lra|].
      apply IH; [lia | exact Ea].
Qed.

Lemma weight_nonneg (t : R) : 0 <= t -> 0 <= weight t.
Proof.
  intros Ht. unfold weight, int_beta.
  assert (exp (- t) <= 1).
  { destruct Ht as [Ht | <-]; [|rewrite Ropp_0, exp_0; lra].
    left. rewrite <- exp_0. apply exp_increasing. lra. }
  lra.
Qed.

Lemma loss_tensor_length (model : R -> tensor -> tensor) (ib : R -> R)
  (x : tensor) (t : R) (n : tensor) :
  (forall s y, length (model s y) = length y) -> length n = length x ->
  length (Tensor.add (model t (noised_sample ib x t n))
            (Tensor.div_scalar n (sqrt (loss_variance ib t))))
  = length x.
Proof.
  intros Hshape Hn. unfold Tensor.add.
  rewrite map2_length, Hshape. unfold Tensor.div_scalar. rewrite length_map.
  rewrite (noised_sample_pointwise ib x t n Hn), length_map, length_seq.
  rewrite Hn. apply Nat.min_id.
Qed.

Lemma single_loss_of_noise_nonneg (model : R -> tensor -> tensor)
  (w ib : R -> R) (x : tensor) (t : R) (n : tensor) :
  x <> [] -> length n = length x ->
  (forall s y, length (model s y) = length y) -> 0 <= w t ->
  0 <= single_loss_of_noise model w ib x t n.
Proof.
  intros Hx Hn Hshape Hw. unfold single_loss_of_noise.
  apply Rmult_le_pos; [exact Hw|].
  apply mean_nonneg; [|apply square_nonneg].
  unfold Tensor.square. intros E. apply map_eq_nil in E.
  apply (f_equal (@length R)) in E.
  rewrite (loss_tensor_length model ib x t n Hshape Hn) in E.
  destruct x; [contradiction | discriminate].
Qed.

(** X1: the loss of one example is non-negative whenever the weight at
    its time is (the example is non-empty and the network keeps shapes). *)
Theorem single_loss_fn_nonneg (p : bool) (erf_inv : R -> R)
  (model : R -> tensor -> tensor) (w ib : R -> R) (x : tensor) (t : R)
  (k : key) :
  x <> [] -> (forall s y, length (model s y) = length y) -> 0 <= w t ->
  0 <= single_loss_fn p erf_inv model w ib x t k.
Proof.
  intros Hx Hshape Hw. unfold single_loss_fn.
  apply single_loss_of_noise_nonneg; try assumption.
  apply normal_length.
Qed.

Lemma single_loss_fn_nonneg_witness :
  0 <= single_loss_fn true (fun u => u) (fun _ y => y) weight int_beta
         [1; 2] 1 (PRNGKey 1736).
Proof.
  apply (single_loss_fn_nonneg true (fun u => u) (fun _ y => y) weight int_beta
           [1; 2] 1 (PRNGKey 1736)).
  - discriminate.
  - intros s y. reflexivity.
  - apply weight_nonneg. lra.
Defined.

(** X2: the loss of one example is zero exactly when the weight at its
    time is zero or the network predicts -noise/std at every element. *)
Theorem single_loss_zero_iff (model : R -> tensor -> tensor) (w ib : R -> R)
  (x : tensor) (t : R) (n : tensor) :
  x <> [] -> length n = length x ->
  (forall s y, length (model s y) = length y) ->
  single_loss_of_noise model w ib x t n = 0 <->
  w t = 0 \/
  model t (noised_sample ib x t n)
  = map (fun e => - (e / sqrt (loss_variance ib t))) n.
Proof.
  intros Hx Hn Hshape. unfold single_loss_of_noise.
  pose proof (loss_tensor_length model ib x t n Hshape Hn) as Hlen.
  set (pred := model t (noised_sample ib x t n)) in *.
  set (std := sqrt (loss_variance ib t)) in *.
  assert (HN : INR (length x) <> 0).
  { apply not_0_INR. destruct x; [contradiction | discriminate]. }
  assert (Hlp : length pred = length (Tensor.div_scalar n std)).
  { subst pred. rewrite Hshape. unfold Tensor.div_scalar. rewrite length_map.
    rewrite (noised_sample_pointwise ib x t n Hn), length_map, length_seq.
    symmetry. exact Hn. }
  assert (Hmean : Tensor.mean (Tensor.square (Tensor.add pred (Tensor.div_scalar n std))) = 0
                  <-> pred = map (fun e => - (e / std)) n).
  { unfold Tensor.mean. unfold Tensor.square at 2. rewrite length_map, Hlen.
    rewrite <- (map_map (fun e => e / std) Ropp n).
    fold (Tensor.div_scalar n std).
    rewrite <- (add_zero_iff pred _ Hlp), <- sum_squares_zero.
    split.
    - intros E. apply (Rmult_eq_reg_r (/ INR (length x)));
        [|apply Rinv_neq_0_compat; exact HN].
      rewrite Rmult_0_l. exact E.
    - intros E. unfold Rdiv. rewrite E. apply Rmult_0_l. }
  split.
  - intros E. apply Rmult_integral in E. destruct E as [E|E];
      [left; exact E | right; apply Hmean; exact E].
  - intros [E|E]; [rewrite E; apply Rmult_0_l|].
    apply Hmean in E. rewrite E. apply Rmult_0_r.
Qed.

Lemma single_loss_zero_iff_witness :
  single_loss_of_noise (fun _ y => map Ropp y) weight int_beta [1] 1 [3] = 0
  <->
  weight 1 = 0 \/
  map Ropp (noised_sample int_beta [1] 1 [3])
  = map (fun e => - (e / sqrt (loss_variance int_beta 1))) [3].
Proof.
  apply (single_loss_zero_iff (fun _ y => map Ropp y) weight int_beta
           [1] 1 [3]).
  - discriminate.
  - reflexivity.
  - intros s y. apply length_map.
Defined.

(** The signal scale and the noise variance of the identity schedule. *)
Lemma signal_scale_square (t : R) : exp (- 0.5 * int_beta t) ^ 2 = exp (- t).
Proof.
  unfold int_beta. cbn [pow]. rewrite Rmult_1_r, <- exp_plus. f_equal. lra.
Qed.

(** X3: read over the exact reals, the schedule is variance preserving
    above the floor: the squared signal scale and the noise variance add up
    to 1 as soon as 1 - exp(-t) >= 1e-5; below, the variance is the floor
    1e-5 itself; and the variance lies in [1e-5, 1).  (In binary32 the sum
    is 1 only up to rounding, and the variance reaches 1.0 for large t.) *)
Theorem schedule_variance_preserving (t : R) :
  (1e-5 <= 1 - exp (- t) ->
   exp (- 0.5 * int_beta t) ^ 2 + loss_variance int_beta t = 1) /\
  (1 - exp (- t) <= 1e-5 -> loss_variance int_beta t = 1e-5) /\
  1e-5 <= loss_variance int_beta t < 1.
Proof.
  pose proof (exp_pos (- t)) as Hpos.
  unfold loss_variance. unfold int_beta at 2 3 4 5.
  split; [|split].
  - intros H. rewrite signal_scale_square, Rmax_left by exact H. lra.
  - intros H. apply Rmax_right. exact H.
  - split; [apply Rmax_r|]. apply Rmax_lub_lt; lra.
Qed.

Lemma schedule_variance_preserving_witness :
  exp (- 0.5 * int_beta 0) ^ 2 + loss_variance int_beta 0 = 1 + 1e-5 /\
  loss_variance int_beta 0 = 1e-5.
Proof.
  destruct (schedule_variance_preserving 0) as [_ [Hfloor _]].
  assert (H : 1 - exp (- 0) <= 1e-5) by (rewrite Ropp_0, exp_0; lra).
  split; [|exact (Hfloor H)].
  rewrite (Hfloor H), signal_scale_square, Ropp_0, exp_0. lra.
Defined.

End LossFacts.

Section BatchFacts.
Open Scope R_scope.

Lemma batch_time_bounds (p : bool) (B : nat) (t1 : R) (k : key) (i : nat) :
  0 < t1 -> (i < B)%nat ->
  let ts := map (fun i => nth i (Sampling.uniform p (time_key p k) B 0
                                   (t1 / INR B)) 0
                          + INR i * (t1 / INR B)) (seq 0 B) in
  INR i * (t1 / INR B) <= nth i ts 0 < (INR i + 1) * (t1 / INR B).
Proof.
  intros Ht1 Hi ts. subst ts. rewrite (nth_map_seq _ B i 0 Hi).
  assert (HBR : 0 < INR B) by (apply lt_0_INR; lia).
  assert (Hw : 0 < t1 / INR B) by (apply Rdiv_lt_0_compat; assumption).
  pose proof (uniform_nth_range p (time_key p k) B 0 (t1 / INR B) i Hw Hi)
    as [H0 H1].
  lra.
Qed.

(** X4: over the reals the times of a batch are strictly increasing in the
    index of the example, so no two examples of a batch share a time. *)
Theorem batch_times_increasing (p : bool) (B : nat) (t1 : R) (k : key)
  (ts : tensor) (i j : nat) :
  0 < t1 -> batch_times p B t1 k = Ok ts -> (i < j)%nat -> (j < B)%nat ->
  nth i ts 0 < nth j ts 0.
Proof.
  intros Ht1 Hts Hij Hj.
  assert (HB : B <> O) by lia.
  rewrite (batch_times_ok p B t1 k HB) in Hts. injection Hts as <-.
  pose proof (batch_time_bounds p B t1 k i Ht1 ltac:(lia)) as [_ Hi].
  pose proof (batch_time_bounds p B t1 k j Ht1 Hj) as [Hj' _].
  cbv zeta in Hi, Hj'.
  assert (HBR : 0 < INR B) by (apply lt_0_INR; lia).
  assert (Hw : 0 < t1 / INR B) by (apply Rdiv_lt_0_compat; assumption).
  assert (Hle : INR i + 1 <= INR j).
  { rewrite <- S_INR. apply le_INR. lia. }
  eapply Rlt_le_trans; [exact Hi|].
  eapply Rle_trans; [|exact Hj'].
  apply Rmult_le_compat_r; lra.
Qed.

Lemma batch_times_increasing_witness :
  exists ts,
    batch_times true 4 10 (PRNGKey 1736) = Ok ts /\ nth 1 ts 0 < nth 3 ts 0.
Proof.
  eexists. split; [apply (batch_times_ok true 4 10 (PRNGKey 1736)); discriminate|].
  apply (batch_times_increasing true 4 10 (PRNGKey 1736) _ 1 3);
    [lra | apply batch_times_ok; discriminate | lia | lia].
Defined.

(** X5: for a non-empty batch of non-empty examples, t1 > 0, a network
    that keeps shapes and a weight that is non-negative on non-negative
    times, batch_loss_fn returns a non-negative loss. *)
Theorem batch_loss_fn_nonneg (p : bool) (erf_inv : R -> R)
  (model : R -> tensor -> tensor) (w ib : R -> R) (data : list tensor)
  (t1 : R) (k : key) :
  data <> [] -> Forall (fun x => x <> []) data -> 0 < t1 ->
  (forall s y, length (model s y) = length y) ->
  (forall t, 0 <= t -> 0 <= w t) ->
  exists l, batch_loss_fn p erf_inv model w ib data t1 k = Ok l /\ 0 <= l.
Proof.
  intros Hne Hall Ht1 Hshape Hw.
  destruct (batch_loss_fn_value p erf_inv model w ib data t1 k Hne)
    as [ts [Hts [Hlen [_ Hloss]]]].
  eexists. split; [exact Hloss|].
  assert (HB : length data <> O) by (destruct data; [contradiction|discriminate]).
  apply Rmult_le_pos;
    [|left; apply Rinv_0_lt_compat, lt_0_INR; lia].
  apply sum_nonneg. apply Forall_forall. intros v Hv.
  apply in_map_iff in Hv. destruct Hv as [i [<- Hi]]. apply in_seq in Hi.
  unfold single_loss_fn.
  apply single_loss_of_noise_nonneg;
    [|apply normal_length|exact Hshape|].
  - rewrite Forall_forall in Hall. apply Hall. apply nth_In. lia.
  - apply Hw.
    rewrite (batch_times_ok p (length data) t1 k HB) in Hts.
    injection Hts as <-.
    pose proof (batch_time_bounds p (length data) t1 k i Ht1 ltac:(lia))
      as [H0 _].
    cbv zeta in H0. eapply Rle_trans; [|exact H0].
    apply Rmult_le_pos; [apply pos_INR|].
    left. apply Rdiv_lt_0_compat; [exact Ht1 | apply lt_0_INR; lia].
Qed.

Lemma batch_loss_fn_nonneg_witness :
  exists l,
    batch_loss_fn true (fun u => u) (fun _ y => y) weight int_beta
      [[1; 2]; [3; 4]] 10 (PRNGKey 1736) = Ok l /\ 0 <= l.
Proof.
  apply (batch_loss_fn_nonneg true (fun u => u) (fun _ y => y) weight int_beta
           [[1; 2]; [3; 4]] 10 (PRNGKey 1736)).
  - discriminate.
  - repeat constructor; discriminate.
  - lra.
  - intros s y. reflexivity.
  - apply weight_nonneg.
Defined.

End BatchFacts.

(** * Further properties of the optimisation step and of the network *)

Section StepFacts.
Open Scope R_scope.

Variable p : bool.
Variable erf_inv : R -> R.
Variables Model Grads Updates OptState : Type.
Variable forward : Model -> R -> tensor -> tensor.
Variable filter_grad : (Model -> result R) -> Model -> Grads.
Variable optim_update : Grads -> OptState -> Updates * OptState.
Variable apply_updates : Model -> Updates -> Model.

Lemma batch_loss_fn_empty (model : R -> tensor -> tensor) (w ib : R -> R)
  (t1 : R) (k : key) :
  batch_loss_fn p erf_inv model w ib [] t1 k = Raise ZeroDivisionError.
Proof. reflexivity. Qed.

(** X6: make_step raises ZeroDivisionError on an empty batch and returns
    no new state; on a non-empty batch it succeeds, the loss it reports is
    the batch loss of the parameters before the update, and the key it
    returns is the first child of a one-way split of its input key. *)
Theorem make_step_result (model : Model) (w ib : R -> R)
  (data : list tensor) (t1 : R) (k : key) (opt_state : OptState) :
  (data = [] ->
   make_step p erf_inv Model Grads Updates OptState forward filter_grad
     optim_update apply_updates model w ib data t1 k opt_state
   = Raise ZeroDivisionError) /\
  (data <> [] ->
   exists loss model' opt_state',
     batch_loss_fn p erf_inv (forward model) w ib data t1 k = Ok loss /\
     make_step p erf_inv Model Grads Updates OptState forward filter_grad
       optim_update apply_updates model w ib data t1 k opt_state
     = Ok (loss, model', next_key p k, opt_state')).
Proof.
  split.
  - intros ->. unfold make_step. rewrite batch_loss_fn_empty. reflexivity.
  - intros Hne.
    destruct (batch_loss_fn_value p erf_inv (forward model) w ib data t1 k Hne)
      as [ts [_ [_ [_ Hloss]]]].
    unfold make_step. rewrite Hloss. cbn [bind].
    destruct (optim_update _ opt_state) as [updates opt_state'].
    eexists _, _, _. split; reflexivity.
Qed.

End StepFacts.

Section StepWitness.
Open Scope R_scope.

Lemma make_step_result_witness :
  make_step false (fun u => u) unit unit unit unit
    (fun _ _ y => y) (fun _ _ => tt) (fun _ s => (tt, s)) (fun m _ => m)
    tt weight int_beta [] 10 (PRNGKey 1736) tt
  = Raise ZeroDivisionError /\
  exists loss model' opt_state',
    batch_loss_fn false (fun u => u) (fun _ y => y) weight int_beta
      [[1; 2]] 10 (PRNGKey 1736) = Ok loss /\
    make_step false (fun u => u) unit unit unit unit
      (fun _ _ y => y) (fun _ _ => tt) (fun _ s => (tt, s)) (fun m _ => m)
      tt weight int_beta [[1; 2]] 10 (PRNGKey 1736) tt
    = Ok (loss, model', next_key false (PRNGKey 1736), opt_state').
Proof.
  split.
  - apply (proj1 (make_step_result false (fun u => u) unit unit unit unit
                    (fun _ _ y => y) (fun _ _ => tt) (fun _ s => (tt, s))
                    (fun m _ => m) tt weight int_beta [] 10%R (PRNGKey 1736) tt)).
    reflexivity.
  - apply (proj2 (make_step_result false (fun u => u) unit unit unit unit
                    (fun _ _ y => y) (fun _ _ => tt) (fun _ s => (tt, s))
                    (fun m _ => m) tt weight int_beta [[1; 2]]%R 10%R
                    (PRNGKey 1736) tt)).
    discriminate.
Defined.

End StepWitness.

Section NetworkShapes.

Import Layers.

Lemma shape_eqb_eq (a b : shape) : shape_eqb a b = true <-> a = b.
Proof.
  unfold shape_eqb. destruct (list_eq_dec Nat.eq_dec a b); split;
    congruence.
Qed.

Lemma MixerBlock_call_mismatch (p : bool) (num_patches hidden_size mps mhs : nat)
  (k : key) (b : MixerBlock) (y : shape) :
  MixerBlock_init p num_patches hidden_size mps mhs k = Ok b ->
  y <> [hidden_size; num_patches] ->
  MixerBlock_call b y = Raise ValueError.
Proof.
  intros Hb Hne.
  destruct (MixerBlock_init_cases p num_patches hidden_size mps mhs k)
    as [[_ E]|[_ [_ [_ [_ E]]]]]; rewrite E in Hb; [discriminate|].
  injection Hb as <-.
  unfold MixerBlock_call. cbn [norm1].
  unfold LayerNorm_call. cbn [norm_shape].
  destruct (shape_eqb y [hidden_size; num_patches]) eqn:E'; [|reflexivity].
  apply shape_eqb_eq in E'. contradiction.
Qed.

(** X7: a mixer block built for (num_patches, hidden_size) accepts exactly
    the inputs of shape (hidden_size, num_patches), and returns that shape;
    every other input shape raises. *)
Theorem MixerBlock_call_shape (p : bool) (num_patches hidden_size mps mhs : nat)
  (k : key) (b : MixerBlock) (y : shape) :
  MixerBlock_init p num_patches hidden_size mps mhs k = Ok b ->
  (y = [hidden_size; num_patches] -> MixerBlock_call b y = Ok y) /\
  (y <> [hidden_size; num_patches] -> MixerBlock_call b y = Raise ValueError).
Proof.
  intros Hb. split.
  - intros ->. apply (MixerBlock_call_init p _ _ mps mhs k). exact Hb.
  - apply (MixerBlock_call_mismatch p _ _ mps mhs k). exact Hb.
Qed.

Lemma MixerBlock_call_shape_witness :
  exists b,
    MixerBlock_init true 49 64 512 512 (PRNGKey 1736) = Ok b /\
    MixerBlock_call b [64; 49] = Ok [64; 49] /\
    MixerBlock_call b [49; 64] = Raise ValueError.
Proof.
  eexists. split; [reflexivity|]. split.
  - apply (proj1 (MixerBlock_call_shape true 49 64 512 512 (PRNGKey 1736) _
                    [64; 49] eq_refl)). reflexivity.
  - apply (proj2 (MixerBlock_call_shape true 49 64 512 512 (PRNGKey 1736) _
                    [49; 64] eq_refl)). discriminate.
Defined.

Lemma conv_extent_floor (n ps : nat) :
  ps <> 0 -> ps <= n -> conv_extent n ps ps = Ok (n / ps).
Proof.
  intros Hps Hle. unfold conv_extent.
  assert (Hlt : (n <? ps) = false) by (apply Nat.ltb_ge; exact Hle).
  assert (Hz : (ps =? 0) = false) by (apply Nat.eqb_neq; exact Hps).
  rewrite Hlt, Hz. cbn [orb]. f_equal.
  replace n with ((n - ps) + 1 * ps) at 2 by lia.
  rewrite Nat.div_add by exact Hps. reflexivity.
Qed.

Lemma convt_extent_floor (n ps : nat) :
  ps <> 0 -> ps <= n -> convt_extent (n / ps) ps ps = Ok (n / ps * ps).
Proof.
  intros Hps Hle.
  assert (Hq : 1 <= n / ps).
  { apply Nat.div_le_lower_bound; lia. }
  unfold convt_extent.
  assert (Hz : (n / ps =? 0) = false) by (apply Nat.eqb_neq; lia).
  rewrite Hz. f_equal. nia.
Qed.

End NetworkShapes.

Section NetworkInputs.

Import Layers.

Lemma apply_blocks_mismatch (p : bool) (np hs mps mhs : nat)
  (keys : list key) (bs : list MixerBlock) (y : shape) :
  for_each (MixerBlock_init p np hs mps mhs) keys = Ok bs ->
  bs <> [] -> y <> [hs; np] ->
  apply_blocks bs y = Raise ValueError.
Proof.
  intros E Hbs Hne. apply for_each_Forall2 in E.
  destruct E as [|k b keys bs Hb _]; [contradiction|].
  cbn [apply_blocks].
  rewrite (MixerBlock_call_mismatch p np hs mps mhs k b y Hb Hne). reflexivity.
Qed.

Lemma LayerNorm_call_mismatch (s x : shape) :
  x <> s -> LayerNorm_call {| norm_shape := s |} x = Raise ValueError.
Proof.
  intros Hne. unfold LayerNorm_call. cbn [norm_shape].
  destruct (shape_eqb x s) eqn:E; [|reflexivity].
  apply shape_eqb_eq in E. contradiction.
Qed.

(** X8: a network built for the image size (c, h, w) decides on an image
    of shape (c', h', w') (both extents at least patch_size, scalar time) by
    the channel count and the number of whole patches alone: with c' = c and
    the same number of patches the call returns (c, (h'/ps)*ps, (w'/ps)*ps),
    which is the input shape only when h' and w' are multiples of the patch
    size; otherwise it raises.  A time that is not a scalar raises. *)
Theorem Mixer2d_call_inputs (p : bool) (c h w ps hs mps mhs nb : nat)
  (t1 : R) (k : key) (m : Mixer2d) (c' h' w' : nat) :
  Mixer2d_init p (c, h, w) ps hs mps mhs nb t1 k = Ok m ->
  ps <= h' -> ps <= w' ->
  (c' = c /\ (h' / ps) * (w' / ps) = (h / ps) * (w / ps) ->
   Mixer2d_call m [] [c'; h'; w'] = Ok [c; h' / ps * ps; w' / ps * ps]) /\
  (c' <> c \/ (h' / ps) * (w' / ps) <> (h / ps) * (w / ps) ->
   Mixer2d_call m [] [c'; h'; w'] = Raise ValueError) /\
  (forall t, t <> [] -> Mixer2d_call m t [c'; h'; w'] = Raise ValueError).
Proof.
  intros Hinit Hh' Hw'.
  destruct (Mixer2d_init_inv p c h w ps hs mps mhs nb t1 k m Hinit)
    as [Hnz [Hh [Hw [Hin [Hout [Hbl Hnorm]]]]]].
  assert (Hrun : Mixer2d_call m [] [c'; h'; w']
    = if c' + 1 =? c + 1 then
        let* y := apply_blocks (blocks m) [hs; h' / ps * (w' / ps)] in
        let* y := LayerNorm_call (norm m) y in
        let* y := unflatten_patches y (h' / ps) (w' / ps) in
        ConvTranspose2d_call (conv_out m) y
      else Raise ValueError).
  { unfold Mixer2d_call. cbn [repeat_plane bind concatenate].
    rewrite shape_eqb_refl. cbn [bind]. rewrite Hin.
    unfold Conv2d_call. cbn [conv_in_channels conv_kernel_size conv_stride
                              conv_out_channels].
    destruct (c' + 1 =? c + 1); [|reflexivity].
    rewrite (conv_extent_floor h' ps Hnz Hh'), (conv_extent_floor w' ps Hnz Hw').
    reflexivity. }
  split; [|split].
  - intros [-> Hnp].
    rewrite Hrun, Nat.eqb_refl, Hnp, (apply_blocks_init p _ hs mps mhs _ _ Hbl).
    cbn [bind]. rewrite Hnorm, LayerNorm_call_same. cbn [bind unflatten_patches].
    rewrite <- Hnp, Nat.eqb_refl, Hout. unfold ConvTranspose2d_call.
    cbn [bind convt_in_channels convt_kernel_size convt_stride
         convt_out_channels].
    rewrite Nat.eqb_refl.
    rewrite (convt_extent_floor h' ps Hnz Hh'), (convt_extent_floor w' ps Hnz Hw').
    reflexivity.
  - intros Hbad. rewrite Hrun.
    destruct (Nat.eqb_spec (c' + 1) (c + 1)) as [Ec|Ec]; [|reflexivity].
    destruct Hbad as [Hc|Hnp]; [lia|].
    assert (Hs : [hs; h' / ps * (w' / ps)] <> [hs; h / ps * (w / ps)])
      by congruence.
    destruct (blocks m) as [|b bs] eqn:Eb.
    + cbn [apply_blocks bind]. rewrite Hnorm.
      rewrite (LayerNorm_call_mismatch _ _ Hs). reflexivity.
    + rewrite (apply_blocks_mismatch p _ hs mps mhs _ (b :: bs) _ Hbl
                 ltac:(discriminate) Hs).
      reflexivity.
  - intros t Ht. unfold Mixer2d_call, repeat_plane.
    destruct t; [contradiction | reflexivity].
Qed.

Lemma Mixer2d_call_inputs_witness :
  exists m,
    Mixer2d_init true (1, 8, 8) 4 64 512 512 4 10 (PRNGKey 1736) = Ok m /\
    Mixer2d_call m [] [1; 9; 8] = Ok [1; 8; 8] /\
    Mixer2d_call m [] [1; 4; 16] = Ok [1; 4; 16] /\
    Mixer2d_call m [] [1; 12; 8] = Raise ValueError /\
    Mixer2d_call m [] [3; 8; 8] = Raise ValueError.
Proof.
  eexists. split; [reflexivity|].
  split; [|split; [|split]].
  - apply (proj1 (Mixer2d_call_inputs true 1 8 8 4 64 512 512 4 10
                    (PRNGKey 1736) _ 1 9 8 eq_refl ltac:(lia) ltac:(lia))).
    split; reflexivity.
  - apply (proj1 (Mixer2d_call_inputs true 1 8 8 4 64 512 512 4 10
                    (PRNGKey 1736) _ 1 4 16 eq_refl ltac:(lia) ltac:(lia))).
    split; reflexivity.
  - apply (proj1 (proj2 (Mixer2d_call_inputs true 1 8 8 4 64 512 512 4 10
                    (PRNGKey 1736) _ 1 12 8 eq_refl ltac:(lia) ltac:(lia)))).
    right. discriminate.
  - apply (proj1 (proj2 (Mixer2d_call_inputs true 1 8 8 4 64 512 512 4 10
                    (PRNGKey 1736) _ 3 8 8 eq_refl ltac:(lia) ltac:(lia)))).
    left. discriminate.
Defined.

Lemma skipn2_cons {A : Type} (l : list A) (d : A) :
  2 <= length l -> l = nth 0 l d :: nth 1 l d :: skipn 2 l.
Proof.
  destruct l as [|a [|b l]]; cbn; intros H; try lia. reflexivity.
Qed.

Lemma block_keys_distinct (np hs mps mhs : nat) (keys : list key)
  (bs : list MixerBlock) :
  for_each (MixerBlock_init true np hs mps mhs) keys = Ok bs ->
  Forall (fun b => mlp_key (patch_mixer b) <> mlp_key (hidden_mixer b)) bs.
Proof.
  intros E. apply for_each_Forall2 in E.
  induction E as [|k b keys bs Hb _ IH]; constructor; [|exact IH].
  destruct (MixerBlock_init_cases true np hs mps mhs k)
    as [[_ E']|[_ [_ [_ [_ E']]]]]; rewrite E' in Hb; [discriminate|].
  injection Hb as <-. cbn [patch_mixer hidden_mixer mlp_key].
  apply (time_key_neq_loss_key k).
Qed.

(** X9: the constructor builds exactly num_blocks mixer blocks, each for
    the same (num_patches, hidden_size); under the partitionable split the
    two convolutions and the blocks are given pairwise distinct keys, and
    inside each block the patch mixer and the hidden mixer are given
    distinct keys. *)
Theorem Mixer2d_init_keys (p : bool) (c h w ps hs mps mhs nb : nat)
  (t1 : R) (k : key) (m : Mixer2d) :
  Mixer2d_init p (c, h, w) ps hs mps mhs nb t1 k = Ok m ->
  exists bkeys,
    for_each (MixerBlock_init p ((h / ps) * (w / ps)) hs mps mhs) bkeys
    = Ok (blocks m) /\
    length bkeys = nb /\
    length (blocks m) = nb /\
    (p = true -> (Z.of_nat (2 + nb) <= 2 ^ 64)%Z ->
     NoDup (conv_key (conv_in m) :: convt_key (conv_out m) :: bkeys) /\
     Forall (fun b => mlp_key (patch_mixer b) <> mlp_key (hidden_mixer b))
            (blocks m)).
Proof.
  intros Hinit.
  destruct (Mixer2d_init_inv p c h w ps hs mps mhs nb t1 k m Hinit)
    as [Hnz [Hh [Hw [Hin [Hout [Hbl Hnorm]]]]]].
  exists (skipn 2 (JaxRandom.split p k (2 + nb))).
  assert (Hlen : length (skipn 2 (JaxRandom.split p k (2 + nb))) = nb)
    by (rewrite length_skipn, split_length; lia).
  split; [exact Hbl|]. split; [exact Hlen|]. split.
  - rewrite (for_each_length _ _ _ Hbl). exact Hlen.
  - intros -> Hbound. split.
    + rewrite Hin, Hout. cbn [conv_key convt_key].
      rewrite <- (skipn2_cons (JaxRandom.split true k (2 + nb)) k)
        by (rewrite split_length; lia).
      apply split_foldlike_NoDup. exact Hbound.
    + apply (block_keys_distinct _ hs mps mhs _ _ Hbl).
Qed.

Lemma Mixer2d_init_keys_witness :
  exists m bkeys,
    Mixer2d_init true (1, 28, 28) 4 64 512 512 4 10 (PRNGKey 1736) = Ok m /\
    for_each (MixerBlock_init true (7 * 7) 64 512 512) bkeys = Ok (blocks m) /\
    length (blocks m) = 4 /\
    NoDup (conv_key (conv_in m) :: convt_key (conv_out m) :: bkeys).
Proof.
  eexists.
  destruct (Mixer2d_init_keys true 1 28 28 4 64 512 512 4 10 (PRNGKey 1736) _
              eq_refl) as [bkeys [Hb [_ [Hl Hk]]]].
  exists bkeys. split; [reflexivity|]. split; [exact Hb|]. split; [exact Hl|].
  apply Hk; [reflexivity | cbn; lia].
Defined.

(** X18: the divisibility of the extents is not all that the constructor
    needs: with at least one block, a zero hidden_size, mix_patch_size or
    mix_hidden_size, or an image without a patch (a zero height or width),
    makes it raise ZeroDivisionError in the linear layers of the first
    block, although both extents are divisible by the patch size. *)
Theorem Mixer2d_init_zero_size (p : bool) (c h w ps hs mps mhs nb : nat)
  (t1 : R) (k : key) :
  ps <> 0 -> h mod ps = 0 -> w mod ps = 0 -> nb <> 0 ->
  (h / ps) * (w / ps) = 0 \/ hs = 0 \/ mps = 0 \/ mhs = 0 ->
  Mixer2d_init p (c, h, w) ps hs mps mhs nb t1 k = Raise ZeroDivisionError.
Proof.
  intros Hps Hh Hw Hnb Hzero.
  destruct (Mixer2d_init_cases p c h w ps hs mps mhs nb t1 k)
    as [[Hz _] | [[_ [Hnd _]] | [_ [_ [_ E]]]]]; [contradiction | tauto |].
  rewrite E.
  destruct (skipn 2 (JaxRandom.split p k (2 + nb))) as [|bk bks] eqn:Ek.
  - apply (f_equal (@length key)) in Ek.
    rewrite length_skipn, split_length in Ek. cbn [length] in Ek. lia.
  - rewrite (for_each_raise _ ZeroDivisionError bk bks); [reflexivity|].
    intros x. apply MixerBlock_init_zero. exact Hzero.
Qed.

Lemma Mixer2d_init_zero_size_witness :
  Mixer2d_init true (1, 28, 28) 4 0 512 512 4 10 (PRNGKey 1736)
  = Raise ZeroDivisionError /\
  Mixer2d_init true (1, 0, 28) 4 64 512 512 4 10 (PRNGKey 1736)
  = Raise ZeroDivisionError.
Proof.
  split.
  - apply (Mixer2d_init_zero_size true 1 28 28 4 0 512 512 4 10 (PRNGKey 1736));
      try reflexivity; try discriminate.
    right. left. reflexivity.
  - apply (Mixer2d_init_zero_size true 1 0 28 4 64 512 512 4 10 (PRNGKey 1736));
      try reflexivity; try discriminate.
    left. reflexivity.
Defined.

End NetworkInputs.

(** * The data statistics and the post-processing of samples *)

Section DataFacts.
Open Scope R_scope.

Lemma sum_map_affine (a b : R) (l : tensor) :
  Tensor.sum (map (fun v => a * v + b) l) = a * Tensor.sum l + INR (length l) * b.
Proof.
  induction l as [|x l IH]; [cbn; lra|].
  cbn [map Tensor.sum fold_right]. fold (Tensor.sum l).
  fold (Tensor.sum (map (fun v => a * v + b) l)). rewrite IH.
  change (length (x :: l)) with (S (length l)). rewrite S_INR. lra.
Qed.

Lemma mean_map_affine (a b : R) (l : tensor) :
  l <> [] -> Tensor.mean (map (fun v => a * v + b) l) = a * Tensor.mean l + b.
Proof.
  intros Hne. unfold Tensor.mean. rewrite length_map, sum_map_affine.
  assert (INR (length l) <> 0).
  { apply not_0_INR. destruct l; [contradiction | discriminate]. }
  field. assumption.
Qed.

Lemma sum_map_scale (a : R) (f : R -> R) (l : tensor) :
  Tensor.sum (map (fun v => a * f v) l) = a * Tensor.sum (map f l).
Proof.
  induction l as [|x l IH]; [cbn; lra|].
  cbn [map Tensor.sum fold_right]. fold (Tensor.sum (map f l)).
  fold (Tensor.sum (map (fun v => a * f v) l)). rewrite IH. lra.
Qed.

Lemma fold_left_Rmax_ge (l : tensor) (a : R) :
  a <= fold_left Rmax l a /\ Forall (fun v => v <= fold_left Rmax l a) l.
Proof.
  revert a. induction l as [|x l IH]; intros a; cbn [fold_left];
    [split; [lra | constructor]|].
  destruct (IH (Rmax a x)) as [H1 H2].
  pose proof (Rmax_l a x). pose proof (Rmax_r a x).
  split; [lra|]. constructor; [lra | exact H2].
Qed.

Lemma fold_left_Rmin_le (l : tensor) (a : R) :
  fold_left Rmin l a <= a /\ Forall (fun v => fold_left Rmin l a <= v) l.
Proof.
  revert a. induction l as [|x l IH]; intros a; cbn [fold_left];
    [split; [lra | constructor]|].
  destruct (IH (Rmin a x)) as [H1 H2].
  pose proof (Rmin_l a x). pose proof (Rmin_r a x).
  split; [lra|]. constructor; [lra | exact H2].
Qed.

Lemma statistics_inv (data : tensor) (s : Data.stats) :
  Data.statistics data = Ok s ->
  data <> [] /\
  Data.data_mean s = Tensor.mean data /\ Data.data_std s = Data.std data /\
  Forall (fun v => Data.data_min s <= v <= Data.data_max s) data.
Proof.
  destruct data as [|a rest]; [discriminate|].
  unfold Data.statistics. cbn [Data.max Data.min bind]. intros E.
  injection E as <-. cbn [Data.data_mean Data.data_std Data.data_min
                          Data.data_max].
  split; [discriminate|]. split; [reflexivity|]. split; [reflexivity|].
  destruct (fold_left_Rmax_ge rest a) as [Ha Hmax].
  destruct (fold_left_Rmin_le rest a) as [Hb Hmin].
  constructor; [lra|].
  rewrite Forall_forall in *. intros v Hv.
  specialize (Hmax v Hv). specialize (Hmin v Hv). lra.
Qed.

Lemma std_square (x : tensor) :
  Data.std x ^ 2
  = Tensor.mean (Tensor.square (map (fun v => v - Tensor.mean x) x)).
Proof.
  unfold Data.std. cbn [pow]. rewrite Rmult_1_r. apply sqrt_sqrt.
  destruct x as [|a x'].
  - unfold Tensor.mean. cbn [map Tensor.square Tensor.sum fold_right].
    unfold Rdiv. rewrite Rmult_0_l. lra.
  - apply mean_nonneg; [|apply square_nonneg].
    unfold Tensor.square. cbn [map]. discriminate.
Qed.

(** X10: a data set with a non-zero standard deviation has, once
    normalised, mean 0 and standard deviation 1. *)
Theorem normalise_mean_std (data : tensor) (s : Data.stats) :
  Data.statistics data = Ok s -> Data.data_std s <> 0 ->
  Tensor.mean (Data.normalise s data) = 0 /\
  Data.std (Data.normalise s data) = 1.
Proof.
  intros Hs Hstd. destruct (statistics_inv data s Hs) as [Hne [Hm [Hsd _]]].
  set (mu := Data.data_mean s) in *. set (sg := Data.data_std s) in *.
  assert (Hnorm : Data.normalise s data
                  = map (fun v => / sg * v + - mu / sg) data).
  { unfold Data.normalise. apply map_ext. intros v. fold mu sg. field. exact Hstd. }
  assert (Hmean : Tensor.mean (Data.normalise s data) = 0).
  { rewrite Hnorm, (mean_map_affine _ _ data Hne), <- Hm. field. exact Hstd. }
  split; [exact Hmean|].
  assert (Hsq : Data.std (Data.normalise s data) ^ 2 = 1).
  { rewrite std_square, Hmean. unfold Data.normalise, Tensor.square.
    rewrite !map_map. fold mu sg.
    rewrite (map_ext _ (fun v => / sg ^ 2 * ((v - mu) ^ 2)))
      by (intros v; field; exact Hstd).
    unfold Tensor.mean. rewrite length_map, sum_map_scale.
    pose proof (std_square data) as Hd. rewrite <- Hsd, <- Hm in Hd.
    fold mu sg in Hd. unfold Tensor.mean, Tensor.square in Hd.
    rewrite !length_map, map_map in Hd.
    unfold Rdiv. rewrite Rmult_assoc. unfold Rdiv in Hd. rewrite <- Hd.
    field. exact Hstd. }
  assert (H0 : 0 <= Data.std (Data.normalise s data))
    by (unfold Data.std; apply sqrt_pos).
  assert (Hf : (Data.std (Data.normalise s data) - 1)
               * (Data.std (Data.normalise s data) + 1) = 0) by nra.
  apply Rmult_integral in Hf. destruct Hf; lra.
Qed.

Lemma normalise_mean_std_witness :
  exists s,
    Data.statistics [1; 3] = Ok s /\
    Tensor.mean (Data.normalise s [1; 3]) = 0 /\
    Data.std (Data.normalise s [1; 3]) = 1.
Proof.
  eexists. split; [reflexivity|].
  apply (normalise_mean_std [1; 3]); [reflexivity|].
  cbn [Data.data_std]. unfold Data.std, Tensor.mean, Tensor.square.
  cbn [map Tensor.sum fold_right length INR].
  apply Rgt_not_eq. apply sqrt_lt_R0. lra.
Defined.

(** X11: in exact real arithmetic, post-processing undoes the
    normalisation on the data itself: every training image, normalised and
    then passed through the de-normalisation and the clipping applied to
    samples, comes back unchanged (the standard deviation being non-zero).
    (In binary32 it comes back only up to rounding.) *)
Theorem postprocess_normalise (data : tensor) (s : Data.stats) :
  Data.statistics data = Ok s -> Data.data_std s <> 0 ->
  Data.postprocess s (Data.normalise s data) = data.
Proof.
  intros Hs Hstd. destruct (statistics_inv data s Hs) as [_ [_ [_ Hrange]]].
  unfold Data.postprocess, Data.normalise, Data.clip. rewrite !map_map.
  rewrite <- (map_id data) at 2. apply map_ext_in. intros v Hv.
  rewrite Forall_forall in Hrange. specialize (Hrange v Hv).
  replace (Data.data_mean s + Data.data_std s * ((v - Data.data_mean s) / Data.data_std s))
    with v by (field; exact Hstd).
  rewrite Rmax_left by lra. apply Rmin_left. lra.
Qed.

Lemma postprocess_normalise_witness :
  exists s,
    Data.statistics [1; 3] = Ok s /\
    Data.postprocess s (Data.normalise s [1; 3]) = [1; 3].
Proof.
  eexists. split; [reflexivity|].
  apply (postprocess_normalise [1; 3]); [reflexivity|].
  cbn [Data.data_std]. unfold Data.std, Tensor.mean, Tensor.square.
  cbn [map Tensor.sum fold_right length INR].
  apply Rgt_not_eq. apply sqrt_lt_R0. lra.
Defined.

(** X12: every element of a post-processed sample lies between the
    smallest and the largest value of the data set, whatever the sampler
    returned, and the post-processing keeps the number of elements. *)
Theorem postprocess_range (data : tensor) (s : Data.stats) (sample : tensor) :
  Data.statistics data = Ok s ->
  length (Data.postprocess s sample) = length sample /\
  Forall (fun v => Data.data_min s <= v <= Data.data_max s)
         (Data.postprocess s sample).
Proof.
  intros Hs. destruct (statistics_inv data s Hs) as [Hne [_ [_ Hrange]]].
  assert (Hle : Data.data_min s <= Data.data_max s).
  { destruct data as [|a rest]; [contradiction|].
    inversion Hrange as [|? ? Ha _]. lra. }
  unfold Data.postprocess, Data.clip. split; [rewrite !length_map; reflexivity|].
  apply Forall_forall. intros v Hv. apply in_map_iff in Hv.
  destruct Hv as [u [<- _]]. split.
  - apply Rmin_glb; [apply Rmax_r | exact Hle].
  - apply Rmin_r.
Qed.

Lemma postprocess_range_witness :
  exists s,
    Data.statistics [1; 3] = Ok s /\
    length (Data.postprocess s [100; -100; 2]) = 3%nat /\
    Forall (fun v => Data.data_min s <= v <= Data.data_max s)
           (Data.postprocess s [100; -100; 2]).
Proof.
  eexists. split; [reflexivity|].
  apply (postprocess_range [1; 3]). reflexivity.
Defined.

(** An empty data set has no statistics. *)
Lemma statistics_empty : Data.statistics [] = Raise ValueError.
Proof. reflexivity. Qed.

End DataFacts.

Section MontageFacts.

(** X13: the montage of the samples exists exactly for single-channel
    data: for the data shape (c, h, w) and the grid side s it has the shape
    (s*h, s*w) when c = 1, and raises for every other channel count. *)
Theorem sample_grid_shape (c h w s : nat) :
  (c = 1 -> Data.sample_grid [c; h; w] s = Ok [s * h; s * w]) /\
  (c <> 1 -> Data.sample_grid [c; h; w] s = Raise ValueError).
Proof.
  unfold Data.sample_grid, Data.montage.
  assert (Hsq : (s ^ 2 =? s * s) = true).
  { apply Nat.eqb_eq. cbn [Nat.pow]. lia. }
  rewrite Hsq. cbn [andb]. split.
  - intros ->. reflexivity.
  - intros Hc. apply Nat.eqb_neq in Hc. rewrite Hc. reflexivity.
Qed.

Lemma sample_grid_shape_witness :
  Data.sample_grid [1; 28; 28] 10 = Ok [280; 280] /\
  Data.sample_grid [3; 32; 32] 10 = Raise ValueError.
Proof.
  split.
  - apply (proj1 (sample_grid_shape 1 28 28 10)). reflexivity.
  - apply (proj2 (sample_grid_shape 3 32 32 10)). discriminate.
Defined.

End MontageFacts.

(** * The training loop *)

Section LoopFacts.
Open Scope R_scope.

Lemma sum_app (a b : tensor) : Tensor.sum (a ++ b) = Tensor.sum a + Tensor.sum b.
Proof.
  unfold Tensor.sum.
  induction a as [|x a IH]; cbn [app fold_right]; [lra | rewrite IH; lra].
Qed.

Lemma sum_seq_S (f : nat -> R) (a n : nat) :
  Tensor.sum (map f (seq a (S n)))
  = Tensor.sum (map f (seq a n)) + f (a + n)%nat.
Proof.
  rewrite seq_S, map_app, sum_app. cbn [map Tensor.sum fold_right]. lra.
Qed.

Lemma skipn_nth_cons {A : Type} (l : list A) (k : nat) (d : A) :
  (k < length l)%nat -> skipn k l = nth k l d :: skipn (S k) l.
Proof.
  revert k. induction l as [|x l IH]; intros k Hk; [cbn in Hk; lia|].
  destruct k as [|k]; [reflexivity|].
  cbn [skipn nth]. apply IH. cbn in Hk. lia.
Qed.

Lemma window_start_le (pe s : nat) : (window_start pe s <= s)%nat.
Proof.
  destruct s as [|s']; [apply Nat.le_refl|]. cbn [window_start].
  destruct (Nat.eq_dec pe 0) as [->|Hpe]; [cbn; lia|].
  pose proof (Nat.div_mod_eq s' pe). nia.
Qed.

Lemma window_start_after_log (pe k : nat) :
  pe <> O -> k mod pe = O -> window_start pe (S k) = S k.
Proof.
  intros Hpe Hmod. cbn [window_start].
  pose proof (Nat.div_mod_eq k pe) as H. rewrite Hmod in H. nia.
Qed.

Lemma window_start_same (pe k : nat) :
  pe <> O -> k mod pe <> O -> window_start pe (S k) = window_start pe k.
Proof.
  intros Hpe Hmod. destruct k as [|k'].
  - rewrite Nat.Div0.mod_0_l in Hmod. contradiction.
  - cbn [window_start]. f_equal. f_equal.
    pose proof (Nat.div_mod_eq k' pe) as H.
    pose proof (Nat.mod_upper_bound k' pe Hpe) as Hr.
    destruct (Nat.eq_dec (S (k' mod pe)) pe) as [E|E].
    + exfalso. apply Hmod.
      replace (S k') with (pe * (k' / pe + 1) + 0)%nat by nia.
      rewrite Nat.add_0_r, Nat.mul_comm. apply Nat.Div0.mod_mul.
    + symmetry. apply (Nat.div_unique (S k') pe (k' / pe) (S (k' mod pe))); lia.
Qed.

Lemma record_loss_step (num_steps pe : nat) (values : list R) (k : nat)
  (lg : loss_log) :
  pe <> O -> (k < num_steps)%nat -> (k < length values)%nat ->
  log_invariant num_steps pe values k lg ->
  exists lg',
    record_loss num_steps pe lg k (nth k values 0) = Ok lg' /\
    log_invariant num_steps pe values (S k) lg'.
Proof.
  intros Hpe Hk Hkv [Hlen [Hnth [Hpr Htot]]].
  destruct (Htot Hk) as [Hsize Hval].
  pose proof (window_start_le pe k) as Hws.
  set (a := window_start pe k) in *.
  set (loss := (total_value lg + nth k values 0) / INR (total_size lg + 1)).
  assert (Hloss : loss = window_mean values a k).
  { subst loss. unfold window_mean. rewrite Hsize, Hval.
    replace (k + 1 - a)%nat with (S (k - a)) by lia.
    replace (k - a + 1)%nat with (S (k - a)) by lia.
    rewrite sum_seq_S. replace (a + (k - a))%nat with k by lia. reflexivity. }
  assert (Hnth' : forall s, (s < S k)%nat ->
            nth s (losses lg ++ [loss]) 0
            = window_mean values (window_start pe s) s).
  { intros s Hs. destruct (Nat.eq_dec s k) as [->|Hne].
    - rewrite app_nth2 by lia. rewrite Hlen, Nat.sub_diag. exact Hloss.
    - rewrite app_nth1 by lia. apply Hnth. lia. }
  assert (Hold : map (fun s => (s, nth s (losses lg) 0))
                     (filter (log_cond num_steps pe) (seq 0 k))
                 = map (fun s => (s, nth s (losses lg ++ [loss]) 0))
                       (filter (log_cond num_steps pe) (seq 0 k))).
  { apply map_ext_in. intros s Hs. apply filter_In in Hs. destruct Hs as [Hs _].
    apply in_seq in Hs. rewrite app_nth1 by lia. reflexivity. }
  assert (Hlast : nth k (losses lg ++ [loss]) 0 = loss).
  { rewrite app_nth2 by lia. rewrite Hlen, Nat.sub_diag. reflexivity. }
  unfold record_loss. unfold py_mod.
  destruct (Nat.eqb_spec pe 0) as [E|_]; [contradiction|]. cbn [bind].
  fold loss.
  destruct ((k mod pe =? 0) || (Z.of_nat k =? Z.of_nat num_steps - 1)%Z)
    eqn:Hcond.
  - eexists. split; [reflexivity|].
    unfold log_invariant. cbn [losses printed total_size total_value].
    split; [rewrite length_app, Hlen; cbn; lia|].
    split; [exact Hnth'|]. split.
    + rewrite seq_S, filter_app, map_app. cbn [filter Nat.add].
      unfold log_cond at 2. rewrite Hcond. cbn [map].
      rewrite Hpr, Hold, Hlast. reflexivity.
    + intros HSk.
      assert (Hmod : k mod pe = O).
      { apply orb_true_iff in Hcond. destruct Hcond as [H|H].
        - apply Nat.eqb_eq. exact H.
        - apply Z.eqb_eq in H. lia. }
      rewrite (window_start_after_log pe k Hpe Hmod), Nat.sub_diag.
      split; reflexivity.
  - eexists. split; [reflexivity|].
    unfold log_invariant. cbn [losses printed total_size total_value].
    split; [rewrite length_app, Hlen; cbn; lia|].
    split; [exact Hnth'|]. split.
    + rewrite seq_S, filter_app, map_app. cbn [filter Nat.add].
      unfold log_cond at 2. rewrite Hcond. cbn [map]. rewrite app_nil_r.
      rewrite Hpr. exact Hold.
    + intros HSk.
      assert (Hmod : k mod pe <> O).
      { apply orb_false_iff in Hcond. destruct Hcond as [H _].
        apply Nat.eqb_neq. exact H. }
      rewrite (window_start_same pe k Hpe Hmod). fold a.
      split; [lia|].
      replace (S k - a)%nat with (S (k - a)) by lia.
      rewrite sum_seq_S. replace (a + (k - a))%nat with k by lia.
      rewrite Hval. reflexivity.
Qed.

Lemma record_losses_from (num_steps pe : nat) (values : list R) :
  pe <> O -> (length values <= num_steps)%nat ->
  forall (n k : nat) (lg : loss_log),
    (k + n = length values)%nat ->
    log_invariant num_steps pe values k lg ->
    exists lg',
      record_losses num_steps pe (combine (seq k n) (skipn k values)) lg
      = Ok lg' /\
      log_invariant num_steps pe values (length values) lg'.
Proof.
  intros Hpe Hlen n. induction n as [|n IH]; intros k lg Hk Hinv.
  - cbn [seq combine record_losses]. exists lg. split; [reflexivity|].
    replace (length values) with k by lia. exact Hinv.
  - assert (Hkv : (k < length values)%nat) by lia.
    destruct (record_loss_step num_steps pe values k lg Hpe ltac:(lia) Hkv Hinv)
      as [lg1 [H1 Hinv1]].
    rewrite (skipn_nth_cons values k 0 Hkv).
    cbn [seq combine record_losses]. rewrite H1. cbn [bind].
    apply IH; [lia | exact Hinv1].
Qed.

End LoopFacts.

Section LoopClaims.
Open Scope R_scope.

(** X14: the bookkeeping of the loop, for a positive print_every and the
    values of at most num_steps consecutive steps from step 0: every step
    records one loss; the loss recorded at step s is the mean of the values
    of the steps since the last printed step (step 0 alone, then the steps
    ((s-1)/print_every)*print_every + 1 .. s); and the printed lines are
    those of the steps divisible by print_every and of step num_steps - 1,
    each with the loss recorded at that step. *)
Theorem record_losses_window (num_steps pe : nat) (values : list R) :
  pe <> O -> (length values <= num_steps)%nat ->
  exists lg,
    record_losses num_steps pe (combine (seq 0 (length values)) values)
      empty_log = Ok lg /\
    length (losses lg) = length values /\
    (forall s, (s < length values)%nat ->
       nth s (losses lg) 0 = window_mean values (window_start pe s) s) /\
    printed lg
    = map (fun s => (s, nth s (losses lg) 0))
          (filter (log_cond num_steps pe) (seq 0 (length values))).
Proof.
  intros Hpe Hlen.
  destruct (record_losses_from num_steps pe values Hpe Hlen (length values) 0
              empty_log eq_refl) as [lg [Hrun [H1 [H2 [H3 _]]]]].
  - unfold log_invariant, empty_log.
    cbn [losses printed total_size total_value length seq filter map
         window_start Nat.sub Tensor.sum fold_right].
    repeat split. intros s Hs. lia.
  - exists lg. cbn [skipn] in Hrun. repeat split; assumption.
Qed.

Lemma record_losses_window_witness :
  exists lg,
    record_losses 5 2 (combine (seq 0 5) [1; 2; 4; 8; 16]) empty_log = Ok lg /\
    length (losses lg) = 5%nat /\
    (forall s, (s < 5)%nat ->
       nth s (losses lg) 0
       = window_mean [1; 2; 4; 8; 16] (window_start 2 s) s) /\
    printed lg
    = map (fun s => (s, nth s (losses lg) 0))
          (filter (log_cond 5 2) (seq 0 5)).
Proof.
  apply (record_losses_window 5 2 [1; 2; 4; 8; 16]); [discriminate | cbn; lia].
Defined.

(** The bookkeeping on five steps with print_every = 2: the losses are
    1, 2, (2+4)/2, 8, (8+16)/2 and the steps 0, 2 and 4 are printed. *)
Example record_losses_five :
  exists lg,
    record_losses 5 2 (combine (seq 0 5) [1; 2; 4; 8; 16]) empty_log = Ok lg /\
    losses lg = [1; 2; 3; 8; 12] /\
    printed lg = [(0%nat, 1); (2%nat, 3); (4%nat, 12)].
Proof.
  eexists. split; [cbn; reflexivity|].
  cbn [losses printed]. split; repeat f_equal; lra.
Qed.

Lemma record_loss_ok (num_steps pe : nat) (lg : loss_log) (s : nat) (v : R) :
  pe <> O -> exists lg', record_loss num_steps pe lg s v = Ok lg'.
Proof.
  intros Hpe. unfold record_loss, py_mod.
  destruct (Nat.eqb_spec pe 0) as [E|_]; [contradiction|]. cbn [bind].
  destruct (_ || _); eexists; reflexivity.
Qed.

Lemma record_loss_zero (num_steps : nat) (lg : loss_log) (s : nat) (v : R) :
  record_loss num_steps 0 lg s v = Raise ZeroDivisionError.
Proof. reflexivity. Qed.

End LoopClaims.

Section TrainFacts.
Open Scope R_scope.

Variable p : bool.
Variable erf_inv : R -> R.
Variables Model Grads Updates OptState : Type.
Variable forward : Model -> R -> tensor -> tensor.
Variable filter_grad : (Model -> result R) -> Model -> Grads.
Variable optim_update : Grads -> OptState -> Updates * OptState.
Variable apply_updates : Model -> Updates -> Model.
Variables w ib : R -> R.
Variable t1 : R.

Local Notation "'run_step'" :=
  (make_step p erf_inv Model Grads Updates OptState forward filter_grad
     optim_update apply_updates).
Local Notation "'run_loop'" :=
  (train_loop p erf_inv Model Grads Updates OptState forward filter_grad
     optim_update apply_updates w ib t1).
Local Notation "'run_body'" :=
  (train_body p erf_inv Model Grads Updates OptState forward filter_grad
     optim_update apply_updates w ib t1).
Local Notation "'run_trace'" :=
  (run_steps p erf_inv Model Grads Updates OptState forward filter_grad
     optim_update apply_updates w ib t1).
Local Notation "'run_train'" :=
  (train p erf_inv Model Grads Updates OptState forward filter_grad
     optim_update apply_updates w ib t1).

Lemma make_step_nonempty (model : Model) (data : list tensor) (k : key)
  (opt_state : OptState) :
  data <> [] ->
  exists loss model' opt_state',
    run_step model w ib data t1 k opt_state
    = Ok (loss, model', next_key p k, opt_state').
Proof.
  intros Hne.
  destruct (batch_loss_fn_value p erf_inv (forward model) w ib data t1 k Hne)
    as [ts [_ [_ [_ Hloss]]]].
  unfold make_step. rewrite Hloss. cbn [bind].
  destruct (optim_update _ opt_state) as [updates opt_state'].
  eexists _, _, _. reflexivity.
Qed.

Lemma make_step_empty (model : Model) (k : key) (opt_state : OptState) :
  run_step model w ib [] t1 k opt_state = Raise ZeroDivisionError.
Proof. reflexivity. Qed.

Lemma train_loop_ok (num_steps pe : nat) :
  pe <> O ->
  forall (steps : list (nat * list tensor)) (st : train_state Model OptState),
    Forall (fun sb => snd sb <> []) steps ->
    exists st' values,
      run_loop num_steps pe steps st = Ok st' /\
      run_trace (map snd steps) (tr_model _ _ st) (tr_key _ _ st)
        (tr_opt_state _ _ st)
      = Ok (values, tr_model _ _ st', tr_key _ _ st', tr_opt_state _ _ st') /\
      length values = length steps /\
      record_losses num_steps pe (combine (map fst steps) values) (tr_log _ _ st)
      = Ok (tr_log _ _ st') /\
      tr_key _ _ st' = Nat.iter (length steps) (next_key p) (tr_key _ _ st).
Proof.
  intros Hpe steps. induction steps as [|[s b] rest IH]; intros st Hall.
  - exists st, []. repeat split; reflexivity.
  - inversion Hall as [|? ? Hb Hrest]; subst. cbn [snd] in Hb.
    destruct (make_step_nonempty (tr_model _ _ st) b (tr_key _ _ st)
                (tr_opt_state _ _ st) Hb) as [v [m' [o' Hstep]]].
    destruct (record_loss_ok num_steps pe (tr_log _ _ st) s v Hpe) as [lg1 Hlg].
    cbn [train_loop]. unfold train_body. rewrite Hstep. cbn [bind].
    rewrite Hlg. cbn [bind].
    destruct (IH {| tr_model := m'; tr_key := next_key p (tr_key _ _ st);
                    tr_opt_state := o'; tr_log := lg1 |} Hrest)
      as [st' [values [Hrun [Htrace [Hlen [Hrec Hkey]]]]]].
    exists st', (v :: values). split; [exact Hrun|].
    cbn [tr_log tr_key tr_model tr_opt_state] in Htrace, Hrec, Hkey.
    split; [|split; [cbn; lia|split]].
    + cbn [map snd run_steps]. rewrite Hstep. cbn [bind].
      rewrite Htrace. reflexivity.
    + cbn [map fst combine record_losses]. rewrite Hlg. cbn [bind]. exact Hrec.
    + rewrite Hkey. cbn [length]. rewrite Nat.iter_succ_r. reflexivity.
Qed.

Lemma map_fst_combine_seq {A : Type} (l : list A) (k n : nat) :
  map fst (combine (seq k n) l) = seq k (Nat.min n (length l)).
Proof.
  revert k l. induction n as [|n IH]; intros k [|x l]; try reflexivity.
  cbn [seq combine map fst length Nat.min]. f_equal. apply IH.
Qed.

Lemma map_snd_combine_seq {A : Type} (l : list A) (k n : nat) :
  map snd (combine (seq k n) l) = firstn n l.
Proof.
  revert k l. induction n as [|n IH]; intros k [|x l]; try reflexivity.
  cbn [seq combine map snd firstn]. f_equal. apply IH.
Qed.

Lemma Forall_combine_snd {A B : Type} (P : B -> Prop) (a : list A)
  (b : list B) :
  Forall P b -> Forall (fun x => P (snd x)) (combine a b).
Proof.
  intros H. revert a. induction H as [|y b Hy _ IH]; intros [|x a];
    cbn [combine]; constructor; [exact Hy | apply IH].
Qed.

(** X15: with a positive print_every and non-empty batches the training
    loop succeeds and runs min(num_steps, number of batches) steps.  The
    values it books are the losses that make_step returns on the
    consecutive batches, each step starting from the model, key and
    optimiser state that the step before returned (the first one is
    batch_loss_fn of the initial model on the first batch); the loss
    history is the bookkeeping of exactly these values, one loss per step;
    the model, key and optimiser state it ends with are those of the last
    step, and the key is the start key advanced once per step by
    split(key, 1)[0], whatever the data. *)
Theorem train_run (num_steps pe : nat) (batches : list (list tensor))
  (model : Model) (k : key) (opt_state : OptState) :
  pe <> O -> Forall (fun b => b <> []) batches ->
  exists st values,
    run_train num_steps pe batches model k opt_state = Ok st /\
    run_trace (firstn num_steps batches) model k opt_state
    = Ok (values, tr_model _ _ st, tr_key _ _ st, tr_opt_state _ _ st) /\
    (forall b rest, firstn num_steps batches = b :: rest ->
       batch_loss_fn p erf_inv (forward model) w ib b t1 k
       = Ok (nth 0 values 0)) /\
    length values = Nat.min num_steps (length batches) /\
    record_losses num_steps pe (combine (seq 0 (length values)) values)
      empty_log = Ok (tr_log _ _ st) /\
    length (losses (tr_log _ _ st)) = Nat.min num_steps (length batches) /\
    tr_key _ _ st
    = Nat.iter (Nat.min num_steps (length batches)) (next_key p) k.
Proof.
  intros Hpe Hall. unfold train.
  set (steps := combine (seq 0 num_steps) batches).
  assert (Hsteps : length steps = Nat.min num_steps (length batches)).
  { subst steps. rewrite length_combine, length_seq. reflexivity. }
  destruct (train_loop_ok num_steps pe Hpe steps
              {| tr_model := model; tr_key := k; tr_opt_state := opt_state;
                 tr_log := empty_log |}
              (Forall_combine_snd _ _ _ Hall))
    as [st [values [Hrun [Htrace [Hlen [Hrec Hkey]]]]]].
  cbn [tr_log tr_key tr_model tr_opt_state] in Htrace, Hrec, Hkey.
  subst steps. rewrite map_snd_combine_seq in Htrace.
  exists st, values. split; [exact Hrun|]. split; [exact Htrace|].
  split.
  { intros b rest Eb. rewrite Eb in Htrace. cbn [run_steps] in Htrace.
    assert (Hb : b <> []).
    { destruct num_steps as [|n]; [discriminate|].
      destruct Hall as [|b0 bs Hb0 _]; [discriminate|].
      cbn [firstn] in Eb. injection Eb as <- _. exact Hb0. }
    destruct (batch_loss_fn_value p erf_inv (forward model) w ib b t1 k Hb)
      as [ts [_ [_ [_ Hloss]]]].
    unfold make_step in Htrace. rewrite Hloss in Htrace. cbn [bind] in Htrace.
    destruct (optim_update _ opt_state) as [updates opt_state'].
    cbn [bind] in Htrace.
    destruct (run_trace rest _ _ _) as [[[[vs m'] k'] o']|e];
      cbn [bind] in Htrace; [|discriminate].
    injection Htrace as <- _ _ _. exact Hloss. }
  split; [rewrite Hlen; exact Hsteps|].
  assert (Hrec' : record_losses num_steps pe
                    (combine (seq 0 (length values)) values) empty_log
                  = Ok (tr_log _ _ st)).
  { rewrite <- Hrec. rewrite map_fst_combine_seq.
    rewrite Hlen, Hsteps. reflexivity. }
  split; [exact Hrec'|].
  split; [|rewrite Hkey, Hsteps; reflexivity].
  destruct (record_losses_from num_steps pe values Hpe
              ltac:(rewrite Hlen, Hsteps; apply Nat.le_min_l)
              (length values) 0 empty_log eq_refl)
    as [lg [Hrun' [H1 _]]].
  - unfold log_invariant, empty_log.
    cbn [losses printed total_size total_value length seq filter map
         window_start Nat.sub Tensor.sum fold_right].
    repeat split. intros s Hs. lia.
  - cbn [skipn] in Hrun'. rewrite Hrec' in Hrun'. injection Hrun' as <-.
    rewrite H1, Hlen. exact Hsteps.
Qed.

(** X16: the loop raises ZeroDivisionError, after the first step has run,
    when print_every is 0, and at the first step when the first batch is
    empty; with num_steps = 0 or no batch it returns the initial state and
    an empty loss history. *)
Theorem train_edges (num_steps pe : nat) (b : list tensor)
  (batches : list (list tensor)) (model : Model) (k : key)
  (opt_state : OptState) :
  (b <> [] ->
   run_train (S num_steps) 0 (b :: batches) model k opt_state
   = Raise ZeroDivisionError) /\
  run_train (S num_steps) pe ([] :: batches) model k opt_state
  = Raise ZeroDivisionError /\
  run_train 0 pe (b :: batches) model k opt_state
  = Ok {| tr_model := model; tr_key := k; tr_opt_state := opt_state;
          tr_log := empty_log |} /\
  run_train num_steps pe [] model k opt_state
  = Ok {| tr_model := model; tr_key := k; tr_opt_state := opt_state;
          tr_log := empty_log |}.
Proof.
  split; [|split; [|split]].
  - intros Hb. unfold train. cbn [seq combine train_loop]. unfold train_body.
    cbn [tr_model tr_key tr_opt_state tr_log].
    destruct (make_step_nonempty model b k opt_state Hb) as [v [m' [o' Hstep]]].
    rewrite Hstep. cbn [bind]. rewrite record_loss_zero. reflexivity.
  - reflexivity.
  - reflexivity.
  - unfold train. destruct num_steps; reflexivity.
Qed.

End TrainFacts.

Section TrainWitness.
Open Scope R_scope.

Lemma train_run_witness :
  exists st values,
    train true (fun u => u) unit unit unit unit
      (fun _ _ y => y) (fun _ _ => tt) (fun _ s => (tt, s)) (fun m _ => m)
      weight int_beta 10 3 2 [[[1; 2]]; [[3; 4]]] tt (PRNGKey 1736) tt = Ok st /\
    run_steps true (fun u => u) unit unit unit unit
      (fun _ _ y => y) (fun _ _ => tt) (fun _ s => (tt, s)) (fun m _ => m)
      weight int_beta 10 [[[1; 2]]; [[3; 4]]] tt (PRNGKey 1736) tt
    = Ok (values, tr_model _ _ st, tr_key _ _ st, tr_opt_state _ _ st) /\
    length values = 2%nat /\
    record_losses 3 2 (combine (seq 0 (length values)) values) empty_log
    = Ok (tr_log _ _ st) /\
    tr_key _ _ st = Nat.iter 2 (next_key true) (PRNGKey 1736).
Proof.
  destruct (train_run true (fun u => u) unit unit unit unit
              (fun _ _ y => y) (fun _ _ => tt) (fun _ s => (tt, s))
              (fun m _ => m) weight int_beta 10 3 2 [[[1; 2]]; [[3; 4]]] tt
              (PRNGKey 1736) tt)
    as [st [values [Hrun [Htrace [_ [Hlen [Hrec [_ Hkey]]]]]]]].
  - discriminate.
  - repeat constructor; discriminate.
  - exists st, values. repeat split; assumption.
Defined.

Lemma train_edges_witness :
  train true (fun u => u) unit unit unit unit
    (fun _ _ y => y) (fun _ _ => tt) (fun _ s => (tt, s)) (fun m _ => m)
    weight int_beta 10 3 0 [[[1; 2]]; [[3; 4]]] tt (PRNGKey 1736) tt
  = Raise ZeroDivisionError.
Proof.
  apply (proj1 (train_edges true (fun u => u) unit unit unit unit
                  (fun _ _ y => y) (fun _ _ => tt) (fun _ s => (tt, s))
                  (fun m _ => m) weight int_beta 10 2 0 [[1; 2]] [[[3; 4]]]
                  tt (PRNGKey 1736) tt)).
  discriminate.
Defined.

End TrainWitness.
